(** * Agrotech-Plus: the cross-cutting request-handling layer

    A shallow embedding of the middleware of the application
    (soft-delete interceptor, rate limiter, tiered cache, CSRF guard,
    API version router) and the properties its specification states.

    Conventions of the embedding:
    - JavaScript objects used as dictionaries are [gmap string _];
      where the order of the properties matters (the filter of
      [hardDelete], the handlers of [versionedHandler]) an object is an
      association list;
    - an absent property is absent from the map and reads as [undefined];
      an optional argument that is left out is [None];
    - mutable singletons (the cache tiers, the logger, the database) are
      threaded explicitly; a call that may throw returns a [Res];
    - logging is recorded as the calls made to the logger helpers
      ([logWarn], [logError], ...): a function returns its calls in their
      order, the state of the cache keeps the most recent call first;
    - times are milliseconds since the epoch, as [Date.now()] gives them. *)

From Stdlib Require Import ZArith Lia Bool List Ascii String.
From stdpp Require Import base option list strings pretty gmap fin_maps.

Local Open Scope string_scope.
Local Open Scope Z_scope.

(** ** JavaScript values that occur in criteria, payloads and log contexts *)

#[warnings="-register-all"]
Inductive JsVal : Type :=
| JUndefined
| JNull
| JBool (b : bool)
| JNum (z : Z)
| JStr (s : string)
| JDate (ms : Z)
| JArr (items : list JsVal)
| JObj (fields : list (string * JsVal)).

(** [x === undefined] *)
Definition is_undefined (v : JsVal) : bool :=
  match v with JUndefined => true | _ => false end.

(** Reading a property of an object: an absent property reads [undefined]. *)
Definition js_get (o : gmap string JsVal) (k : string) : JsVal :=
  default JUndefined (o !! k).

(** Outcome of a call that may throw. *)
Inductive Res (A : Type) : Type :=
| Ok (a : A)
| Threw (e : string).
Arguments Ok {A} a.
Arguments Threw {A} e.

(** ** Logger (lib/logger.ts) *)

Module Logger.

Inductive LogLevel := ERROR | WARN | INFO | DEBUG.

#[global] Instance LogLevel_eq_dec : EqDecision LogLevel.
Proof. solve_decision. Defined.

Record LogCall := {
  level : LogLevel;
  message : string;
  context : list (string * JsVal);
  error : option string
}.

Definition logLevelOrder (l : LogLevel) : Z :=
  match l with ERROR => 0 | WARN => 1 | INFO => 2 | DEBUG => 3 end.

Definition level_named (name : string) : option LogLevel :=
  if String.eqb name "ERROR" then Some ERROR
  else if String.eqb name "WARN" then Some WARN
  else if String.eqb name "INFO" then Some INFO
  else if String.eqb name "DEBUG" then Some DEBUG
  else None.

(** [process.env.LOG_LEVEL || (production ? 'INFO' : 'DEBUG')], as a level;
    [None] when the variable names no level. *)
Definition currentLevel (LOG_LEVEL : option string) (production : bool)
    : option LogLevel :=
  match LOG_LEVEL with
  | Some name =>
      if String.eqb name "" then Some (if production then INFO else DEBUG)
      else level_named name
  | None => Some (if production then INFO else DEBUG)
  end.

(** [shouldLog]: a comparison with the order of no level is false. *)
Definition shouldLog (current : option LogLevel) (l : LogLevel) : bool :=
  match current with
  | Some c => logLevelOrder l <=? logLevelOrder c
  | None => false
  end.

(** The helpers below are the calls made to the logger; which of them
    reach the console is decided by [shouldLog]. *)
Definition printed (current : option LogLevel) (calls : list LogCall)
    : list LogCall :=
  filter (λ c, shouldLog current (level c) = true) calls.

Definition logError (msg : string) (e : option string)
    (ctx : list (string * JsVal)) : LogCall :=
  {| level := ERROR; message := msg; context := ctx; error := e |}.

Definition logWarn (msg : string) (ctx : list (string * JsVal)) : LogCall :=
  {| level := WARN; message := msg; context := ctx; error := None |}.

Definition logInfo (msg : string) (ctx : list (string * JsVal)) : LogCall :=
  {| level := INFO; message := msg; context := ctx; error := None |}.

(** [logger.security]: a warning whose message carries the
    "Security Event: " prefix. *)
Definition logSecurity (event : string) (ctx : list (string * JsVal)) : LogCall :=
  logWarn ("Security Event: " +:+ event) ctx.

End Logger.

(** ** HTTP requests as the handlers see them *)

Inductive HeaderVal := HStr (s : string) | HArr (l : list string).

Record Request := {
  req_method : option string;
  req_url : option string;
  req_headers : gmap string HeaderVal;
  req_query : gmap string HeaderVal;
  req_remoteAddress : option string
}.

(** JavaScript truthiness of a header or query value: absent values and the
    empty string are falsy, arrays are truthy. *)
Definition truthy (h : option HeaderVal) : bool :=
  match h with
  | None => false
  | Some (HStr s) => negb (String.eqb s "")
  | Some (HArr _) => true
  end.

(** [a || b] *)
Definition js_or (a b : option HeaderVal) : option HeaderVal :=
  if truthy a then a else b.

Definition header_to_js (h : option HeaderVal) : JsVal :=
  match h with
  | None => JUndefined
  | Some (HStr s) => JStr s
  | Some (HArr l) => JArr (JStr <$> l)
  end.

Definition opt_str_to_js (o : option string) : JsVal :=
  match o with None => JUndefined | Some s => JStr s end.

(** A response written by a middleware: status code and JSON body. *)
Record Reply := {
  status : Z;
  body : list (string * JsVal)
}.

(** ** API version router (lib/api-versioning.ts) *)

Module ApiVersioning.

Definition CURRENT_VERSION : string := "v1".
Definition SUPPORTED_VERSIONS : list string := ["v1"].

(** [SUPPORTED_VERSIONS.includes(version)] *)
Definition isSupportedVersion (version : string) : bool :=
  bool_decide (version ∈ SUPPORTED_VERSIONS).

(** [headerVersion && isSupportedVersion(headerVersion)]: an array value
    is truthy but is no element of the supported list. *)
Definition accepted (h : option HeaderVal) : option string :=
  match h with
  | Some (HStr s) =>
      if negb (String.eqb s "") && isSupportedVersion s then Some s else None
  | _ => None
  end.

Definition is_digit (c : ascii) : bool :=
  let n := nat_of_ascii c in (48 <=? n)%nat && (n <=? 57)%nat.

(** Longest prefix of decimal digits, and what follows it. *)
Fixpoint span_digits (s : string) : string * string :=
  match s with
  | String c s' =>
      if is_digit c then
        let '(ds, rest) := span_digits s' in (String c ds, rest)
      else ("", s)
  | EmptyString => ("", "")
  end.

Fixpoint strip_prefix (p s : string) : option string :=
  match p, s with
  | EmptyString, _ => Some s
  | String a p', String b s' =>
      if Ascii.eqb a b then strip_prefix p' s' else None
  | String _ _, EmptyString => None
  end.

(** The regular expression [/\/api\/(v\d+)\//] anchored at the start of
    [s]; the digits are followed by a slash, so only the longest run of
    digits can match. *)
Definition match_here (s : string) : option string :=
  match strip_prefix "/api/v" s with
  | Some rest =>
      let '(ds, rest') := span_digits rest in
      match ds, rest' with
      | String _ _, String c _ =>
          if Ascii.eqb c "/"%char then Some ("v" +:+ ds) else None
      | _, _ => None
      end
  | None => None
  end.

(** [path.match(/\/api\/(v\d+)\//)]: the capture group of the leftmost
    match. *)
Fixpoint path_match (s : string) : option string :=
  match match_here s with
  | Some v => Some v
  | None =>
      match s with
      | String _ s' => path_match s'
      | EmptyString => None
      end
  end.

Definition getApiVersion (req : Request) : string :=
  let headerVersion :=
    js_or (req_headers req !! "x-api-version")
          (req_headers req !! "accept-version") in
  match accepted headerVersion with
  | Some v => v
  | None =>
      match accepted (req_query req !! "version") with
      | Some v => v
      | None =>
          let path := default "" (req_url req) in
          match path_match path with
          | Some v => if isSupportedVersion v then v else CURRENT_VERSION
          | None => CURRENT_VERSION
          end
      end
  end.

Section Dispatch.
(** The version-specific handlers of an endpoint.  The object that holds
    them is given by its properties in the order in which they were
    written, each version once: [Object.keys] lists them in that order
    (version names are no array indices). *)
Context {Handler : Type}.

(** [handlers[version]] *)
Fixpoint handler_for (handlers : list (string * Handler)) (version : string)
    : option Handler :=
  match handlers with
  | [] => None
  | (v, h) :: rest => if String.eqb v version then Some h else handler_for rest version
  end.

Inductive Dispatch :=
| Respond (r : Reply)
| Invoke (h : Handler) (headers : list (string * string)).

Definition join_versions (l : list string) : string :=
  match l with
  | [] => ""
  | v :: vs => foldl (λ acc x, acc +:+ ", " +:+ x) v vs
  end.

Definition versionedHandler (handlers : list (string * Handler))
    (req : Request) : Dispatch * list Logger.LogCall :=
  let version := getApiVersion req in
  if negb (isSupportedVersion version) then
    (Respond {| status := 400;
                body := [("error", JStr "Unsupported API Version");
                         ("message", JStr ("API version '" +:+ version
                                           +:+ "' is not supported"));
                         ("supportedVersions", JArr (JStr <$> SUPPORTED_VERSIONS));
                         ("currentVersion", JStr CURRENT_VERSION)] |},
     [Logger.logWarn "Unsupported API version requested"
        [("requestedVersion", JStr version);
         ("supportedVersions", JArr (JStr <$> SUPPORTED_VERSIONS));
         ("path", opt_str_to_js (req_url req))]])
  else
    match handler_for handlers version with
    | None =>
        let available := handlers.*1 in
        (Respond {| status := 501;
                    body := [("error", JStr "Version Not Implemented");
                             ("message", JStr ("This endpoint does not support version '"
                                               +:+ version +:+ "'"));
                             ("supportedVersions", JArr (JStr <$> available))] |},
         [Logger.logWarn "No handler for API version"
            [("version", JStr version);
             ("path", opt_str_to_js (req_url req));
             ("availableVersions", JArr (JStr <$> available))]])
    | Some handler =>
        (Invoke handler
           [("X-API-Version", version);
            ("X-API-Current-Version", CURRENT_VERSION);
            ("X-API-Supported-Versions", join_versions SUPPORTED_VERSIONS)],
         [])
    end.
End Dispatch.
Arguments Dispatch : clear implicits.

End ApiVersioning.

(** ** Soft-delete interceptor (lib/soft-delete.ts) *)

Module SoftDelete.

Definition SOFT_DELETE_MODELS : list string :=
  ["User"; "Customer"; "Farmer"; "Product"; "Order"; "OrderItem";
   "Address"; "ProductReview"; "Subscription"].

Definition supportsSoftDelete (modelName : string) : bool :=
  bool_decide (modelName ∈ SOFT_DELETE_MODELS).

(** The operations a data-access middleware is called with. *)
Inductive Action :=
| FindUnique | FindUniqueOrThrow | FindFirst | FindFirstOrThrow | FindMany
| Create | CreateMany | Update | UpdateMany | Upsert
| Delete | DeleteMany | ExecuteRaw | QueryRaw
| Aggregate | Count | GroupBy.

#[global] Instance Action_eq_dec : EqDecision Action.
Proof. solve_decision. Defined.

(** [params.args] when the operation was called with an arguments object:
    the criteria, the payload, and the properties the interceptor never
    touches ([select], [orderBy], [take], ...). *)
Record Args := {
  where_ : option (gmap string JsVal);
  data : option (gmap string JsVal);
  other : gmap string JsVal
}.

(** The parameters of an operation that was called with an arguments
    object; for an operation called without one see [Call] below. *)
Record Params := {
  model : option string;
  action : Action;
  args : Args
}.

Definition obj_to_js (o : option (gmap string JsVal)) : JsVal :=
  match o with
  | None => JUndefined
  | Some m => JObj (map_to_list m)
  end.

Definition set_data (d : gmap string JsVal) (a : Args) : Args :=
  {| where_ := where_ a; data := Some d; other := other a |}.

Definition set_where (w : gmap string JsVal) (a : Args) : Args :=
  {| where_ := Some w; data := data a; other := other a |}.

(** [params.action = act; params.args.data = { deletedAt: new Date() }] *)
Definition to_update (act : Action) (now : Z) (params : Params) : Params :=
  {| model := model params;
     action := act;
     args := set_data {[ "deletedAt" := JDate now ]} (args params) |}.

(** First middleware: delete operations become updates.  [now] is the
    value of [new Date()]. *)
Definition deleteMiddleware (now : Z) (params : Params)
    : Params * list Logger.LogCall :=
  if negb (supportsSoftDelete (default "" (model params))) then (params, [])
  else
    let '(p1, l1) :=
      if decide (action params = Delete) then
        (to_update Update now params,
         [Logger.logInfo "Soft delete: Converting delete to update"
            [("model", opt_str_to_js (model params));
             ("where", obj_to_js (where_ (args params)))]])
      else (params, []) in
    let '(p2, l2) :=
      if decide (action p1 = DeleteMany) then
        (to_update UpdateMany now p1,
         [Logger.logInfo "Soft delete: Converting deleteMany to updateMany"
            [("model", opt_str_to_js (model p1));
             ("where", obj_to_js (where_ (args p1)))]])
      else (p1, []) in
    (p2, (l1 ++ l2)%list).

(** [{ ...params.args.where, deletedAt: null }] *)
Definition force_live (params : Params) : Params :=
  {| model := model params;
     action := action params;
     args := set_where (<[ "deletedAt" := JNull ]> (default ∅ (where_ (args params))))
                       (args params) |}.

(** The branch shared by [findMany], [count] and [aggregate]. *)
Definition default_live (params : Params) : Params :=
  match where_ (args params) with
  | Some w =>
      if is_undefined (js_get w "deletedAt") then
        {| model := model params;
           action := action params;
           args := set_where (<[ "deletedAt" := JNull ]> w) (args params) |}
      else params
  | None =>
      {| model := model params;
         action := action params;
         args := set_where {[ "deletedAt" := JNull ]} (args params) |}
  end.

(** Second middleware: reads exclude soft-deleted records. *)
Definition readMiddleware (params : Params) : Params :=
  if negb (supportsSoftDelete (default "" (model params))) then params
  else
    let p1 :=
      if decide (action params = FindUnique ∨ action params = FindFirst)
      then force_live params else params in
    let p2 := if decide (action p1 = FindMany) then default_live p1 else p1 in
    let p3 := if decide (action p2 = Count) then default_live p2 else p2 in
    let p4 := if decide (action p3 = Aggregate) then default_live p3 else p3 in
    p4.

(** The two middlewares in the order [setupSoftDeleteMiddleware] registers
    them: what reaches the query engine, and what was logged. *)
Definition intercept (now : Z) (params : Params)
    : Params * list Logger.LogCall :=
  let '(p, logs) := deleteMiddleware now params in
  (readMiddleware p, logs).

(** *** Operations called without arguments

    What the data-access library hands to a middleware in general:
    [params.args] is [undefined] when the operation was called without
    arguments ([deleteMany()], [findMany()], [count()]). *)
Record Call := {
  call_model : option string;
  call_action : Action;
  call_args : option Args
}.

Definition with_args (c : Call) (a : Args) : Params :=
  {| model := call_model c; action := call_action c; args := a |}.

Definition call_of (p : Params) : Call :=
  {| call_model := model p; call_action := action p; call_args := Some (args p) |}.

(** The message of the [TypeError] that reading [params.args.where]
    throws when [params.args] is [undefined]. *)
Definition no_args_error : string :=
  "Cannot read properties of undefined (reading 'where')".

(** First middleware on a call.  Without arguments, both branches throw
    when they evaluate [params.args.where] for the log call, before
    anything is logged or rewritten. *)
Definition deleteMiddlewareCall (now : Z) (c : Call)
    : Res (Call * list Logger.LogCall) :=
  match call_args c with
  | Some a =>
      let '(p, logs) := deleteMiddleware now (with_args c a) in
      Ok (call_of p, logs)
  | None =>
      if negb (supportsSoftDelete (default "" (call_model c))) then Ok (c, [])
      else if decide (call_action c = Delete) then Threw no_args_error
      else if decide (call_action c = DeleteMany) then Threw no_args_error
      else Ok (c, [])
  end.

(** Second middleware on a call.  Without arguments, each of the five
    branches throws when it reads [params.args.where]. *)
Definition readMiddlewareCall (c : Call) : Res Call :=
  match call_args c with
  | Some a => Ok (call_of (readMiddleware (with_args c a)))
  | None =>
      if negb (supportsSoftDelete (default "" (call_model c))) then Ok c
      else if decide (call_action c = FindUnique ∨ call_action c = FindFirst)
      then Threw no_args_error
      else if decide (call_action c = FindMany) then Threw no_args_error
      else if decide (call_action c = Count) then Threw no_args_error
      else if decide (call_action c = Aggregate) then Threw no_args_error
      else Ok c
  end.

(** The two middlewares on a call, in the order of their registration:
    what reaches the query engine and what was logged, or the error the
    operation is rejected with. *)
Definition interceptCall (now : Z) (c : Call)
    : Res (Call * list Logger.LogCall) :=
  match deleteMiddlewareCall now c with
  | Threw e => Threw e
  | Ok (c1, logs) =>
      match readMiddlewareCall c1 with
      | Threw e => Threw e
      | Ok c2 => Ok (c2, logs)
      end
  end.

(** The data-access handle is an external collaborator.  Its contract is
    kept to what the interceptor relies on: [delete]/[deleteMany] remove
    the rows meeting the criteria, [update]/[updateMany] overwrite the
    payload's columns in them, and reads leave the table alone.  How
    criteria select rows is left to the engine ([selects]). *)
Section Engine.
Variable selects : option (gmap string JsVal) → gmap string JsVal → bool.

Definition run_query (p : Params) (table : list (gmap string JsVal))
    : list (gmap string JsVal) :=
  match action p with
  | Delete | DeleteMany =>
      filter (λ row, selects (where_ (args p)) row = false) table
  | Update | UpdateMany =>
      (λ row, if selects (where_ (args p)) row
              then default ∅ (data (args p)) ∪ row else row) <$> table
  | _ => table
  end.
End Engine.

(** [withDeleted()] and [onlyDeleted()] *)
Definition withDeleted : gmap string JsVal :=
  {[ "deletedAt" := JObj [("not", JUndefined)] ]}.
Definition onlyDeleted : gmap string JsVal :=
  {[ "deletedAt" := JObj [("not", JNull)] ]}.

(** *** hardDelete *)

Definition lower_ascii (c : ascii) : ascii :=
  let n := nat_of_ascii c in
  if (65 <=? n)%nat && (n <=? 90)%nat then ascii_of_nat (n + 32) else c.

Fixpoint toLowerCase (s : string) : string :=
  match s with
  | EmptyString => EmptyString
  | String c s' => String (lower_ascii c) (toLowerCase s')
  end.

(** A statement of the SQL template library, as [$executeRaw] takes it:
    the pieces of text, and the values that go between them. *)
Record RawQuery := {
  strings : list string;
  values : list JsVal
}.

(** [Prisma.sql(strings, ...values)], the tag of the template library,
    which is not among the sources: a statement has one more piece of text
    than it has values, and the tag throws a [TypeError] otherwise. *)
Definition Prisma_sql (strings : list string) (values : list JsVal)
    : Res RawQuery :=
  if (length strings =? S (length values))%nat then
    Ok {| strings := strings; values := values |}
  else if (length strings =? 0)%nat then Threw "Expected at least 1 string"
  else
    Threw ("Expected " +:+ pretty (length strings) +:+ " strings to have "
           +:+ pretty (length strings - 1)%nat +:+ " values").

Fixpoint join (sep : string) (l : list string) : string :=
  match l with
  | [] => ""
  | [x] => x
  | x :: rest => x +:+ sep +:+ join sep rest
  end.

(** The double-quote character. *)
Definition dquote : string := String (ascii_of_nat 34) EmptyString.

(** ["key" = $index+1] for every key, joined by [AND]. *)
Definition whereClause (whereKeys : list string) : string :=
  join " AND "
    (imap (λ index key, dquote +:+ key +:+ dquote +:+ " = $" +:+ pretty (S index))
          whereKeys).

Section HardDelete.
(** [delegates name]: the data-access handle has a property [name];
    [executeRaw q]: what running the statement yields, a row count or an
    exception. *)
Variable delegates : string → bool.
Variable executeRaw : RawQuery → Res Z.

(** The result, the calls to the logger, and the statements issued. *)
Definition hardDelete (model : string) (where_ : list (string * JsVal))
    (context : list (string * JsVal))
    : bool * list Logger.LogCall * list RawQuery :=
  let entry :=
    Logger.logWarn "Hard delete operation"
      ([("model", JStr model); ("where", JObj where_)] ++ context)%list in
  let failed (e : string) (issued : list RawQuery) :=
    (false,
     [entry;
      Logger.logWarn "Hard delete failed"
        [("model", JStr model); ("where", JObj where_); ("error", JStr e)]],
     issued) in
  if negb (delegates (toLowerCase model)) then
    failed ("Model " +:+ model +:+ " not found") []
  else
    let tableName := toLowerCase model in
    let whereKeys := where_.*1 in
    let whereValues := where_.*2 in
    if (length whereKeys =? 0)%nat then
      failed "Where clause cannot be empty for hard delete" []
    else
      match Prisma_sql ["DELETE FROM " +:+ dquote +:+ tableName +:+ dquote
                        +:+ " WHERE " +:+ whereClause whereKeys]
                       whereValues with
      | Threw e => failed e []
      | Ok q =>
          match executeRaw q with
          | Ok _ => (true, [entry], [q])
          | Threw e => failed e [q]
          end
      end.
End HardDelete.

(** *** Introspection helpers *)

Definition isDeleted (record : option (gmap string JsVal)) : bool :=
  match record with
  | None => false
  | Some r =>
      match r !! "deletedAt" with
      | None | Some JUndefined | Some JNull => false
      | Some _ => true
      end
  end.

End SoftDelete.

(** ** Tiered cache (lib/redis.ts) *)

Module Cache.

Record CacheOptions := {
  memoryTTL : option Z;
  redisTTL : option Z;
  skipMemory : option bool;
  skipRedis : option bool
}.

Definition defaultOptions : CacheOptions :=
  {| memoryTTL := Some 300; redisTTL := Some 3600;
     skipMemory := Some false; skipRedis := Some false |}.

Definition noOptions : CacheOptions :=
  {| memoryTTL := None; redisTTL := None; skipMemory := None; skipRedis := None |}.

(** [{ ...defaultOptions, ...options }] *)
Definition merge (options : CacheOptions) : CacheOptions :=
  {| memoryTTL := from_option Some (memoryTTL defaultOptions) (memoryTTL options);
     redisTTL := from_option Some (redisTTL defaultOptions) (redisTTL options);
     skipMemory := from_option Some (skipMemory defaultOptions) (skipMemory options);
     skipRedis := from_option Some (skipRedis defaultOptions) (skipRedis options) |}.

(** [opts.memoryTTL || 300] and [opts.redisTTL || 3600]: zero is falsy. *)
Definition ttl_or (t : option Z) (dflt : Z) : Z :=
  match t with
  | Some z => if z =? 0 then dflt else z
  | None => dflt
  end.

Definition skips (b : option bool) : bool := default false b.

(** What the surroundings decide during one call of the service: whether
    the distributed tier is reported available ([isRedisAvailable()], taken
    to answer the same throughout the call), and which commands of either
    tier fail. *)
Record Faults := {
  redis_available : bool;
  mem_get_throws : bool;
  mem_set_throws : bool;
  redis_get_fails : bool;
  redis_del_fails : bool;
  redis_setex_fails : bool
}.

(** Everything works and the distributed tier is connected. *)
Definition healthy : Faults :=
  {| redis_available := true; mem_get_throws := false; mem_set_throws := false;
     redis_get_fails := false; redis_del_fails := false;
     redis_setex_fails := false |}.

(** The distributed tier is reported unavailable. *)
Definition redis_down : Faults :=
  {| redis_available := false; mem_get_throws := false; mem_set_throws := false;
     redis_get_fails := false; redis_del_fails := false;
     redis_setex_fails := false |}.

(** Commands sent to the distributed tier, and calls of the fetch function. *)
Inductive Event :=
| EvFetch (key : string)
| EvRedisGet (key : string)
| EvRedisDel (key : string)
| EvRedisSetex (key : string) (ttl : Z) (payload : string).

Section Service.
(** The values a caller may cache, [undefined] and [null] among them.
    [unwrap v] is what the in-process cache hands back for a stored [v]:
    node-cache, which is not among the sources, hands back the value it
    stored, except that for a stored [undefined] it hands back [null].
    [stringify v] is the text [JSON.stringify] sends to the distributed
    tier for [v], and [parse s = None] when [JSON.parse] throws on [s]. *)
Context {V : Type}.
Variable unwrap : V → V.
Variable stringify : V → Res string.
Variable parse : string → option V.

(** Both tiers keep, with each value, the time at which it expires.  The
    log and the trace have the most recent entry first. *)
Record State := {
  mem : gmap string (V * Z);
  redis : gmap string (string * Z);
  log : list Logger.LogCall;
  trace : list Event
}.

Definition empty_state : State :=
  {| mem := ∅; redis := ∅; log := []; trace := [] |}.

(** A small state monad for the service's methods. *)
Definition M (A : Type) : Type := State → A * State.

Definition ret {A} (a : A) : M A := λ s, (a, s).

Definition bind {A B} (m : M A) (k : A → M B) : M B :=
  λ s, let '(a, s') := m s in k a s'.

Notation "x <- m ;; k" := (bind m (λ x, k))
  (at level 90, m at level 89, k at level 90, right associativity).
Notation "m ;;; k" := (bind m (λ _, k))
  (at level 90, k at level 90, right associativity).

Definition logWarn (msg : string) (ctx : list (string * JsVal)) : M unit :=
  λ s, (tt, {| mem := mem s; redis := redis s;
               log := Logger.logWarn msg ctx :: log s; trace := trace s |}).

Definition emit (ev : Event) : M unit :=
  λ s, (tt, {| mem := mem s; redis := redis s;
               log := log s; trace := ev :: trace s |}).

(** The in-process tier (node-cache): an entry whose expiry time has
    passed reads as absent, an expiry time of zero means never; a
    time-to-live is in seconds and is never zero here.  A read yields
    [None], which stands for [undefined], for an absent entry only. *)
Definition mem_live (now : Z) (entry : V * Z) : bool :=
  (entry.2 =? 0) || (now <=? entry.2).

Definition memoryCache_get (now : Z) (key : string) : M (option V) :=
  λ s, (match mem s !! key with
        | Some entry => if mem_live now entry then Some (unwrap entry.1) else None
        | None => None
        end, s).

Definition memoryCache_set (now : Z) (key : string) (value : V) (ttl : Z)
    : M unit :=
  λ s, (tt, {| mem := <[ key := (value, now + ttl * 1000) ]> (mem s);
               redis := redis s; log := log s; trace := trace s |}).

Definition memoryCache_del (key : string) : M unit :=
  λ s, (tt, {| mem := base.delete key (mem s);
               redis := redis s; log := log s; trace := trace s |}).

(** The distributed tier (Redis): [GET], [DEL] and [SETEX], when the
    command succeeds. *)
Definition redis_live (now : Z) (entry : string * Z) : bool :=
  now <? entry.2.

Definition redis_get (now : Z) (key : string) : M (option string) :=
  emit (EvRedisGet key) ;;;
  λ s, (match redis s !! key with
        | Some entry => if redis_live now entry then Some entry.1 else None
        | None => None
        end, s).

Definition redis_del (key : string) : M unit :=
  emit (EvRedisDel key) ;;;
  λ s, (tt, {| mem := mem s; redis := base.delete key (redis s);
               log := log s; trace := trace s |}).

Definition redis_setex (now : Z) (key : string) (ttl : Z) (payload : string)
    : M unit :=
  emit (EvRedisSetex key ttl payload) ;;;
  λ s, (tt, {| mem := mem s;
               redis := <[ key := (payload, now + ttl * 1000) ]> (redis s);
               log := log s; trace := trace s |}).

(** Level 1 of [get]: the read of the in-process tier counts as a hit when
    [memoryResult !== undefined], which is so whenever the tier holds a
    live entry, a stored [undefined] coming back as [null]; a failing read
    is a miss. *)
Definition get_memory (now : Z) (f : Faults) (key : string)
    (opts : CacheOptions) : M (option V) :=
  if skips (skipMemory opts) then ret None
  else if mem_get_throws f then ret None
  else
    memoryResult <- memoryCache_get now key ;;
    match memoryResult with
    | Some v => ret (Some v)
    | None => ret None
    end.

(** Storing in the in-process tier, with the message logged on failure. *)
Definition store_memory (now : Z) (f : Faults) (key : string) (value : V)
    (opts : CacheOptions) (msg : string) : M unit :=
  if skips (skipMemory opts) then ret tt
  else if mem_set_throws f then
    logWarn msg [("key", JStr key); ("error", JStr "memoryError")]
  else memoryCache_set now key value (ttl_or (memoryTTL opts) 300).

(** Level 2 of [get]: the distributed tier.  A stored value that does not
    parse is deleted; every failure is logged and read as a miss. *)
Definition get_redis (now : Z) (f : Faults) (key : string)
    (opts : CacheOptions) : M (option V) :=
  if negb (skips (skipRedis opts)) && redis_available f then
    if redis_get_fails f then
      emit (EvRedisGet key) ;;;
      logWarn "Redis get failed, falling back to fetch"
        [("key", JStr key); ("error", JStr "redisError")] ;;;
      ret None
    else
      redisResult <- redis_get now key ;;
      match redisResult with
      | Some payload =>
          if String.eqb payload "" then ret None
          else
            match parse payload with
            | Some parsed =>
                store_memory now f key parsed opts "Memory cache set failed" ;;;
                ret (Some parsed)
            | None =>
                logWarn "Redis cache value parse failed, invalidating"
                  [("key", JStr key)] ;;;
                (if redis_del_fails f then
                   emit (EvRedisDel key) ;;;
                   logWarn "Failed to delete corrupted cache entry"
                     [("key", JStr key)]
                 else redis_del key) ;;;
                ret None
            end
      | None => ret None
      end
  else ret None.

(** Writing to the distributed tier, as [get] and [set] both do; the two
    differ in the message logged when the command fails. *)
Definition store_redis (now : Z) (f : Faults) (key : string) (value : V)
    (opts : CacheOptions) (msg : string) : M unit :=
  if negb (skips (skipRedis opts)) && redis_available f then
    match stringify value with
    | Threw e => logWarn "Redis set error" [("key", JStr key); ("error", JStr e)]
    | Ok payload =>
        if redis_setex_fails f then
          emit (EvRedisSetex key (ttl_or (redisTTL opts) 3600) payload) ;;;
          logWarn msg [("key", JStr key); ("error", JStr "redisError")]
        else redis_setex now key (ttl_or (redisTTL opts) 3600) payload
    end
  else ret tt.

(** [CacheService.get]: [fetchFunction] is given by what calling it yields.
    The write to the distributed tier, which the source starts and does not
    wait for, is taken to have completed when [get] returns. *)
Definition get (now : Z) (f : Faults) (key : string) (fetchFunction : Res V)
    (options : CacheOptions) : M (Res V) :=
  let opts := merge options in
  memoryResult <- get_memory now f key opts ;;
  match memoryResult with
  | Some v => ret (Ok v)
  | None =>
      redisResult <- get_redis now f key opts ;;
      match redisResult with
      | Some parsed => ret (Ok parsed)
      | None =>
          emit (EvFetch key) ;;;
          match fetchFunction with
          | Threw e => ret (Threw e)
          | Ok fresh =>
              store_redis now f key fresh opts "Redis cache set failed" ;;;
              store_memory now f key fresh opts
                "Memory cache set failed during fetch" ;;;
              ret (Ok fresh)
          end
      end
  end.

(** [CacheService.set] *)
Definition set (now : Z) (f : Faults) (key : string) (value : V)
    (options : CacheOptions) : M unit :=
  let opts := merge options in
  store_memory now f key value opts "Memory cache set failed" ;;;
  store_redis now f key value opts "Redis set failed".

(** [CacheService.delete] *)
Definition delete (f : Faults) (key : string) : M unit :=
  memoryCache_del key ;;;
  if redis_available f then
    if redis_del_fails f then
      emit (EvRedisDel key) ;;;
      logWarn "Redis delete failed" [("key", JStr key); ("error", JStr "redisError")]
    else redis_del key
  else ret tt.

End Service.

Arguments State : clear implicits.

(** For the types of values that do not contain [undefined]: every value
    is handed back as it was stored. *)
Definition as_stored {V : Type} (v : V) : V := v.

End Cache.

(** ** Rate limiter (lib/rate-limit.ts) *)

Module RateLimit.

Record RateLimitConfig := {
  maxRequests : Z;
  windowSeconds : Z;
  identifier : option string;
  keyGenerator : option (Request → string);
  message : option string;
  skip : option (Request → bool)
}.

Record RateLimitData := {
  count : Z;
  resetAt : Z
}.

(** What [checkRateLimit] resolves to. *)
Record Verdict := {
  allowed : bool;
  remaining : Z;
  resetsAt : Z
}.

(** The prefix of [s] before its first comma: [s.split(',')[0]]. *)
Fixpoint before_comma (s : string) : string :=
  match s with
  | EmptyString => EmptyString
  | String c s' =>
      if Ascii.eqb c ","%char then EmptyString else String c (before_comma s')
  end.

Definition getClientIp (req : Request) : string :=
  let forwarded := req_headers req !! "x-forwarded-for" in
  if truthy forwarded then
    match forwarded with
    | Some (HArr l) => default "undefined" (head l)
    | Some (HStr s) => before_comma s
    | None => "unknown"
    end
  else
    match req_remoteAddress req with
    | Some a => if String.eqb a "" then "unknown" else a
    | None => "unknown"
    end.

Definition nonempty_or (o : option string) (dflt : string) : string :=
  match o with
  | Some s => if String.eqb s "" then dflt else s
  | None => dflt
  end.

Definition generateRateLimitKey (config : RateLimitConfig) (req : Request)
    : string :=
  let identifier :=
    nonempty_or (identifier config) (nonempty_or (req_url req) "api") in
  let clientKey :=
    match keyGenerator config with
    | Some g => g req
    | None => getClientIp req
    end in
  "ratelimit:" +:+ identifier +:+ ":" +:+ clientKey.

(** The cache service as the limiter uses it: [get] with a fetch function
    and [set], either of which may throw, over whatever state [W] the
    service keeps. *)
Class CacheService (W : Type) := {
  cache_get : string → Res RateLimitData → Cache.CacheOptions → W
              → Res RateLimitData * W;
  cache_set : string → RateLimitData → Cache.CacheOptions → W
              → Res unit * W
}.

Section Check.
Context {W : Type} `{CacheService W}.

Definition window_options (config : RateLimitConfig) : Cache.CacheOptions :=
  {| Cache.memoryTTL := Some (windowSeconds config);
     Cache.redisTTL := Some (windowSeconds config);
     Cache.skipMemory := None;
     Cache.skipRedis := None |}.

(** The [catch] branch: the request is let through. *)
Definition failOpen (now : Z) (config : RateLimitConfig) (e : string) (w : W)
    : Verdict * list Logger.LogCall * W :=
  ({| allowed := true;
      remaining := maxRequests config;
      resetsAt := now + windowSeconds config * 1000 |},
   [Logger.logError "Rate limit check failed" (Some e) []],
   w).

(** [checkRateLimit]: [now] is [Date.now()] at the start of the check. *)
Definition checkRateLimit (now : Z) (key : string) (config : RateLimitConfig)
    (w : W) : Verdict * list Logger.LogCall * W :=
  let windowMs := windowSeconds config * 1000 in
  match cache_get key (Ok {| count := 0; resetAt := now + windowMs |})
                  (window_options config) w with
  | (Threw e, w1) => failOpen now config e w1
  | (Ok cached, w1) =>
      if resetAt cached <=? now then
        let newData := {| count := 1; resetAt := now + windowMs |} in
        match cache_set key newData (window_options config) w1 with
        | (Threw e, w2) => failOpen now config e w2
        | (Ok _, w2) =>
            ({| allowed := true;
                remaining := maxRequests config - 1;
                resetsAt := resetAt newData |}, [], w2)
        end
      else
        let newCount := count cached + 1 in
        let allowed := newCount <=? maxRequests config in
        match cache_set key {| count := newCount; resetAt := resetAt cached |}
                        (window_options config) w1 with
        | (Threw e, w2) => failOpen now config e w2
        | (Ok _, w2) =>
            ({| allowed := allowed;
                remaining := Z.max 0 (maxRequests config - newCount);
                resetsAt := resetAt cached |}, [], w2)
        end
  end.
End Check.

(** The tiered cache as the limiter's cache service.  The faults of the
    [get] and of the [set] of one check are chosen separately; both calls
    read the clock as [now].  The tiers hold records of the limiter:
    [parse s] is the record the text [s] stands for, and [None] for every
    other text, so that a text under a key of the limiter that
    [JSON.parse] turns into something else than a record ([null], a
    number) is outside this instance. *)
Section Tiered.
Variable stringify : RateLimitData → Res string.
Variable parse : string → option RateLimitData.

Definition tiered (now : Z) (fget fset : Cache.Faults)
    : CacheService (Cache.State RateLimitData) :=
  {| cache_get key fetch options s :=
       Cache.get Cache.as_stored stringify parse now fget key fetch options s;
     cache_set key value options s :=
       let '(_, s') := Cache.set stringify now fset key value options s in
       (Ok tt, s') |}.

(** One check against the tiered cache. *)
Definition check (key : string) (config : RateLimitConfig)
    (call : Z * Cache.Faults * Cache.Faults) (s : Cache.State RateLimitData)
    : Verdict * list Logger.LogCall * Cache.State RateLimitData :=
  let '(now, fget, fset) := call in
  @checkRateLimit _ (tiered now fget fset) now key config s.

(** Successive checks of one key, each at its own time and with its own
    faults; the verdicts come in the order of the calls. *)
Fixpoint checks (key : string) (config : RateLimitConfig)
    (calls : list (Z * Cache.Faults * Cache.Faults))
    (s : Cache.State RateLimitData)
    : list Verdict * Cache.State RateLimitData :=
  match calls with
  | [] => ([], s)
  | call :: rest =>
      let '(v, _, s1) := check key config call s in
      let '(vs, s2) := checks key config rest s1 in
      (v :: vs, s2)
  end.
End Tiered.

(** Predefined policies *)
Definition authRateLimit : RateLimitConfig :=
  {| maxRequests := 5; windowSeconds := 15 * 60; identifier := Some "auth";
     keyGenerator := None;
     message := Some "Too many authentication attempts. Please try again in 15 minutes.";
     skip := None |}.

Definition searchRateLimit : RateLimitConfig :=
  {| maxRequests := 30; windowSeconds := 60; identifier := Some "search";
     keyGenerator := None;
     message := Some "Too many search requests. Please slow down.";
     skip := None |}.

End RateLimit.

(** ** CSRF guard (lib/csrf.ts) *)

Module Csrf.

Record CSRFConfig := {
  skipPaths : option (list string);
  methods : option (list string);
  errorMessage : option string
}.

Definition DEFAULT_METHODS : list string := ["POST"; "PUT"; "DELETE"; "PATCH"].

(** The configuration every field of which is left to its default. *)
Definition defaultConfig : CSRFConfig :=
  {| skipPaths := None; methods := None; errorMessage := None |}.

Definition publicCSRF : CSRFConfig :=
  {| skipPaths := Some ["/api/auth"; "/api/health"; "/api/csrf-token"];
     methods := Some [];
     errorMessage := None |}.

Fixpoint is_prefix (p s : string) : bool :=
  match p, s with
  | EmptyString, _ => true
  | String a p', String b s' => Ascii.eqb a b && is_prefix p' s'
  | String _ _, EmptyString => false
  end.

(** [s.includes(sub)] *)
Fixpoint includes (s sub : string) : bool :=
  is_prefix sub s ||
  match s with
  | EmptyString => false
  | String _ s' => includes s' sub
  end.

(** What the middleware does with a request: hand it on, or answer it. *)
Inductive Outcome :=
| Next
| Rejected (r : Reply).

Section Guard.
(** [sessionUser req]: the user id of the session of the request, when
    the session provider has one.  [verifyToken token sessionId]:
    [CSRFProtection.verifyToken], of lib/security. *)
Variable sessionUser : Request → option string.
Variable verifyToken : HeaderVal → string → bool.

Definition getSessionId (req : Request) : string :=
  match sessionUser req with
  | Some id => if negb (String.eqb id "") then id
               else "ip:" +:+ RateLimit.getClientIp req
  | None => "ip:" +:+ RateLimit.getClientIp req
  end.

(** [req.headers['x-forwarded-for'] || req.socket.remoteAddress] *)
Definition originating_address (req : Request) : JsVal :=
  if truthy (req_headers req !! "x-forwarded-for")
  then header_to_js (req_headers req !! "x-forwarded-for")
  else opt_str_to_js (req_remoteAddress req).

Definition csrfProtection (config : CSRFConfig) (req : Request)
    : Outcome * list Logger.LogCall :=
  let skipPaths := default [] (skipPaths config) in
  let methods := default DEFAULT_METHODS (methods config) in
  let errorMessage := default "Invalid or missing CSRF token" (errorMessage config) in
  if negb (bool_decide (default "" (req_method req) ∈ methods)) then (Next, [])
  else
    let path := default "" (req_url req) in
    if existsb (λ skipPath, includes path skipPath) skipPaths then (Next, [])
    else
      let token := req_headers req !! "x-csrf-token" in
      let missing :=
        (Rejected {| status := 403;
                     body := [("error", JStr "CSRF Validation Failed");
                              ("message", JStr "CSRF token is required")] |},
         [Logger.logSecurity "CSRF token missing"
            [("path", opt_str_to_js (req_url req));
             ("method", opt_str_to_js (req_method req));
             ("ip", originating_address req)]]) in
      match token with
      | Some t =>
          if truthy token then
            let sessionId := getSessionId req in
            if verifyToken t sessionId then (Next, [])
            else
              (Rejected {| status := 403;
                           body := [("error", JStr "CSRF Validation Failed");
                                    ("message", JStr errorMessage)] |},
               [Logger.logSecurity "CSRF token validation failed"
                  [("path", opt_str_to_js (req_url req));
                   ("method", opt_str_to_js (req_method req));
                   ("ip", originating_address req);
                   ("sessionId", JStr sessionId)]])
          else missing
      | None => missing
      end.

End Guard.

End Csrf.

(** * Vocabulary of the specification and sample inputs *)

Module Samples.

(** A request with nothing set. *)
Definition bare : Request :=
  {| req_method := Some "GET"; req_url := Some "/api/products";
     req_headers := ∅; req_query := ∅; req_remoteAddress := Some "10.0.0.7" |}.

(** [GET /api/products] carrying [X-API-Version: v99]. *)
Definition asks_v99 : Request :=
  {| req_method := Some "GET"; req_url := Some "/api/products";
     req_headers := {[ "x-api-version" := HStr "v99" ]};
     req_query := ∅; req_remoteAddress := Some "10.0.0.7" |}.

(** [GET /api/v2/products?version=v3] carrying [Accept-Version: v4]. *)
Definition asks_everywhere : Request :=
  {| req_method := Some "GET"; req_url := Some "/api/v2/products?version=v3";
     req_headers := {[ "accept-version" := HStr "v4" ]};
     req_query := {[ "version" := HStr "v3" ]};
     req_remoteAddress := Some "10.0.0.7" |}.

(** [prisma.user.findFirst({ where: { id: 'u1', deletedAt: { not: null } } })] *)
Definition find_trashed_user : SoftDelete.Params :=
  {| SoftDelete.model := Some "User";
     SoftDelete.action := SoftDelete.FindFirst;
     SoftDelete.args :=
       {| SoftDelete.where_ :=
            Some {[ "id" := JStr "u1";
                    "deletedAt" := JObj [("not", JNull)] ]};
          SoftDelete.data := None;
          SoftDelete.other := ∅ |} |}.

(** The same criteria given to [findMany]. *)
Definition list_trashed_users : SoftDelete.Params :=
  {| SoftDelete.model := Some "User";
     SoftDelete.action := SoftDelete.FindMany;
     SoftDelete.args := SoftDelete.args find_trashed_user |}.

(** [prisma.user.delete({ where: { id: 'u1' } })] *)
Definition delete_user : SoftDelete.Params :=
  {| SoftDelete.model := Some "User";
     SoftDelete.action := SoftDelete.Delete;
     SoftDelete.args :=
       {| SoftDelete.where_ := Some {[ "id" := JStr "u1" ]};
          SoftDelete.data := None;
          SoftDelete.other := ∅ |} |}.

(** Criteria select the rows whose [id] column is the one they name. *)
Definition selects_by_id (w : option (gmap string JsVal))
    (row : gmap string JsVal) : bool :=
  match w ≫= (.!! "id"), row !! "id" with
  | Some (JStr a), Some (JStr b) => String.eqb a b
  | _, _ => false
  end.

(** A fragment of the engine's criteria: a string asks for equality,
    [null] for an empty column, [{ not: null }] for a filled one; any other
    condition is taken to hold. *)
Definition meets (row : gmap string JsVal) (clause : string * JsVal) : bool :=
  match clause.2, js_get row clause.1 with
  | JStr a, JStr b => String.eqb a b
  | JStr _, _ => false
  | JNull, (JNull | JUndefined) => true
  | JNull, _ => false
  | JObj [("not", JNull)], (JNull | JUndefined) => false
  | _, _ => true
  end.

Definition selects_where (w : option (gmap string JsVal))
    (row : gmap string JsVal) : bool :=
  forallb (meets row) (map_to_list (default ∅ w)).

(** The first row the criteria of a read select. *)
Definition find_first (p : SoftDelete.Params) (table : list (gmap string JsVal))
    : option (gmap string JsVal) :=
  head (filter (λ row, selects_where (SoftDelete.where_ (SoftDelete.args p)) row = true)
               table).

Definition users : list (gmap string JsVal) :=
  [ {[ "id" := JStr "u1"; "deletedAt" := JNull ]};
    {[ "id" := JStr "u2"; "deletedAt" := JNull ]} ].

End Samples.

(** The dispatcher answered with the unsupported-version rejection. *)
Definition is_unsupported_rejection {Handler} (d : ApiVersioning.Dispatch Handler)
    : bool :=
  match d with
  | ApiVersioning.Respond r => status r =? 400
  | ApiVersioning.Invoke _ _ => false
  end.

(** The caller's criteria carry a [deletedAt] condition. *)
Definition has_deletedAt (w : option (gmap string JsVal)) : bool :=
  match w with
  | Some m => negb (is_undefined (js_get m "deletedAt"))
  | None => false
  end.

(** The criteria with [deletedAt = null] merged in. *)
Definition with_live_filter (w : option (gmap string JsVal))
    : option (gmap string JsVal) :=
  Some (<[ "deletedAt" := JNull ]> (default ∅ w)).

(** The update that stands for a delete. *)
Definition soft_action (a : SoftDelete.Action) : SoftDelete.Action :=
  match a with
  | SoftDelete.Delete => SoftDelete.Update
  | SoftDelete.DeleteMany => SoftDelete.UpdateMany
  | other => other
  end.

(** *** JSON for the values the samples cache *)

Module Json.

Definition digit_value (c : ascii) : option Z :=
  if ApiVersioning.is_digit c then Some (Z.of_nat (nat_of_ascii c) - 48) else None.

Fixpoint parse_digits (s : string) (acc : Z) : option Z :=
  match s with
  | EmptyString => Some acc
  | String c s' =>
      match digit_value c with
      | Some d => parse_digits s' (acc * 10 + d)
      | None => None
      end
  end.

(** A non-negative integer literal. *)
Definition parse_number (s : string) : option Z :=
  match s with
  | EmptyString => None
  | String _ _ => parse_digits s 0
  end.

Definition stringify_number (z : Z) : Res string := Ok (pretty z).





Definition count_field : string :=
  "{" +:+ SoftDelete.dquote +:+ "count" +:+ SoftDelete.dquote +:+ ":".
Definition resetAt_field : string :=
  "," +:+ SoftDelete.dquote +:+ "resetAt" +:+ SoftDelete.dquote +:+ ":".

(** The text [JSON.stringify] gives a rate-limit record: an object with the
    two properties [count] and [resetAt], in that order. *)
Definition stringify_record (d : RateLimit.RateLimitData) : Res string :=
  Ok (count_field +:+ pretty (RateLimit.count d)
      +:+ resetAt_field +:+ pretty (RateLimit.resetAt d) +:+ "}").

(** Parsing accepts the texts [stringify_record] writes for non-negative
    fields, and throws on everything else. *)
Definition parse_record (s : string) : option RateLimit.RateLimitData :=
  rest ← ApiVersioning.strip_prefix count_field s;
  let '(c, rest) := ApiVersioning.span_digits rest in
  count ← parse_number c;
  rest ← ApiVersioning.strip_prefix resetAt_field rest;
  let '(r, rest) := ApiVersioning.span_digits rest in
  resetAt ← parse_number r;
  if String.eqb rest "}"
  then Some {| RateLimit.count := count; RateLimit.resetAt := resetAt |}
  else None.

End Json.

Module CacheSamples.

(** The distributed tier holds text under [k] that is no JSON. *)
Definition corrupted : Cache.State Z :=
  {| Cache.mem := ∅;
     Cache.redis := {[ "k" := ("{oops", 3600000) ]};
     Cache.log := [];
     Cache.trace := [] |}.

(** A limit of zero requests per minute. *)
Definition blocked : RateLimit.RateLimitConfig :=
  {| RateLimit.maxRequests := 0; RateLimit.windowSeconds := 60;
     RateLimit.identifier := Some "blocked"; RateLimit.keyGenerator := None;
     RateLimit.message := None; RateLimit.skip := None |}.

(** A cache service every call of which throws. *)
Definition unreachable_cache : RateLimit.CacheService unit :=
  {| RateLimit.cache_get _ _ _ w := (Threw "ECONNREFUSED", w);
     RateLimit.cache_set _ _ _ w := (Threw "ECONNREFUSED", w) |}.

(** A cache service that reads, and throws on every write. *)
Definition read_only_cache : RateLimit.CacheService unit :=
  {| RateLimit.cache_get _ fetch _ w := (fetch, w);
     RateLimit.cache_set _ _ _ w := (Threw "READONLY", w) |}.

End CacheSamples.

(** The options make the service use the in-process tier, respectively the
    distributed tier. *)
Definition uses_memory (o : Cache.CacheOptions) : bool :=
  negb (Cache.skips (Cache.skipMemory (Cache.merge o))).
Definition uses_redis (o : Cache.CacheOptions) : bool :=
  negb (Cache.skips (Cache.skipRedis (Cache.merge o))).

(** A warning is in the log. *)
Definition warning_logged {V} (s : Cache.State V) : Prop :=
  ∃ c, c ∈ Cache.log s ∧ Logger.level c = Logger.WARN.

(** The record a check writes back, given the record it read. *)
Definition written_record (now : Z) (config : RateLimit.RateLimitConfig)
    (cached : RateLimit.RateLimitData) : RateLimit.RateLimitData :=
  if RateLimit.resetAt cached <=? now
  then {| RateLimit.count := 1;
          RateLimit.resetAt := now + RateLimit.windowSeconds config * 1000 |}
  else {| RateLimit.count := RateLimit.count cached + 1;
          RateLimit.resetAt := RateLimit.resetAt cached |}.

(** One of the two cache calls of a check throws [e]. *)
Definition cache_raises {W} `{RateLimit.CacheService W} (now : Z) (key : string)
    (config : RateLimit.RateLimitConfig) (w : W) (e : string) : Prop :=
  let first :=
    RateLimit.cache_get key
      (Ok {| RateLimit.count := 0;
             RateLimit.resetAt := now + RateLimit.windowSeconds config * 1000 |})
      (RateLimit.window_options config) w in
  match first.1 with
  | Threw e' => e' = e
  | Ok cached =>
      (RateLimit.cache_set key (written_record now config cached)
         (RateLimit.window_options config) first.2).1 = Threw e
  end.

(** The verdict the specification gives the request that brings the
    counter of a window ending at [resetAt] to [count]. *)
Definition verdict_for (config : RateLimit.RateLimitConfig) (resetAt count : Z)
    : RateLimit.Verdict :=
  {| RateLimit.allowed := count <=? RateLimit.maxRequests config;
     RateLimit.remaining := Z.max 0 (RateLimit.maxRequests config - count);
     RateLimit.resetsAt := resetAt |}.

(** The verdicts of [n] successive requests of a window whose counter
    stands at [count]. *)
Fixpoint verdicts_from (config : RateLimit.RateLimitConfig) (resetAt count : Z)
    (n : nat) : list RateLimit.Verdict :=
  match n with
  | O => []
  | S n' => verdict_for config resetAt (count + 1)
            :: verdicts_from config resetAt (count + 1) n'
  end.

(** A call falls in the window that ends at [resetAt], and the in-process
    tier works during it. *)
Definition in_window (config : RateLimit.RateLimitConfig) (resetAt : Z)
    (call : Z * Cache.Faults * Cache.Faults) : Prop :=
  let '(now, fget, fset) := call in
  resetAt - RateLimit.windowSeconds config * 1000 ≤ now < resetAt ∧
  Cache.mem_get_throws fget = false ∧
  Cache.mem_set_throws fset = false.

Module CsrfSamples.

(** [POST /api/orders] without a token. *)
Definition post_without_token : Request :=
  {| req_method := Some "POST"; req_url := Some "/api/orders";
     req_headers := {[ "x-forwarded-for" := HStr "203.0.113.9, 10.0.0.1" ]};
     req_query := ∅; req_remoteAddress := Some "10.0.0.1" |}.

(** [DELETE /api/orders/7] with a token issued to somebody else. *)
Definition delete_with_foreign_token : Request :=
  {| req_method := Some "DELETE"; req_url := Some "/api/orders/7";
     req_headers := {[ "x-csrf-token" := HStr "token-for:mallory" ]};
     req_query := ∅; req_remoteAddress := Some "10.0.0.1" |}.

(** Every request belongs to the session of [alice]. *)
Definition session_of_alice (_ : Request) : option string := Some "alice".

(** A token is the session identity behind a fixed prefix. *)
Definition verify_by_prefix (token : HeaderVal) (sessionId : string) : bool :=
  match token with
  | HStr t => String.eqb t ("token-for:" +:+ sessionId)
  | HArr _ => false
  end.

End CsrfSamples.

(** The guard applies to the request: its method is one of the protected
    methods of the configuration and its path contains none of the exempt
    paths. *)
Definition guarded (config : Csrf.CSRFConfig) (req : Request) : bool :=
  bool_decide (default "" (req_method req)
               ∈ default Csrf.DEFAULT_METHODS (Csrf.methods config))
  && negb (existsb (λ skipPath, Csrf.includes (default "" (req_url req)) skipPath)
                   (default [] (Csrf.skipPaths config))).





(** The reply of the guard: status 403 and the structured error body. *)
Definition forbidden (message : string) : Reply :=
  {| status := 403;
     body := [("error", JStr "CSRF Validation Failed");
              ("message", JStr message)] |}.


(** Membership in an explicit list. *)
Ltac member := repeat (apply elem_of_cons; first [left; reflexivity | right]).

(** * Further operations of the same files *)

(** [Math.ceil(a / b)] for whole numbers and a positive divisor. *)
Definition ceil_div (a b : Z) : Z := - ((- a) / b).

(** ** Deprecation notices (lib/api-versioning.ts) *)

Module ApiDeprecation.

Definition MS_PER_DAY : Z := 1000 * 60 * 60 * 24.

(** [deprecationWarning(version, deprecatedSince, sunsetDate, message)]
    applied to a request at time [now]: the headers it sets, in order, and
    what it logs; it always calls [next].  A date among the header values
    stands for its ISO text, a number for its decimal text. *)
Definition deprecationWarning (version : string) (deprecatedSince sunsetDate : Z)
    (message : option string) (now : Z) (req : Request)
    : list (string * JsVal) * list Logger.LogCall :=
  let currentVersion := ApiVersioning.getApiVersion req in
  if String.eqb currentVersion version then
    let daysUntilSunset := ceil_div (sunsetDate - now) MS_PER_DAY in
    (([("X-API-Deprecated", JStr "true");
       ("X-API-Deprecated-Since", JDate deprecatedSince);
       ("X-API-Sunset", JDate sunsetDate);
       ("X-API-Sunset-Days", JNum daysUntilSunset)]
      ++ match message with
         | Some m => if String.eqb m "" then []
                     else [("X-API-Deprecation-Message", JStr m)]
         | None => []
         end)%list,
     [Logger.logWarn "Deprecated API version used"
        [("version", JStr version);
         ("path", opt_str_to_js (req_url req));
         ("daysUntilSunset", JNum daysUntilSunset)]])
  else ([], []).

End ApiDeprecation.

(** ** The rate-limiting middleware (lib/rate-limit.ts) *)

Module RateLimitMiddleware.
Import RateLimit.

(** What the middleware does with a request. *)
Inductive Passage :=
| Passed
| Throttled (r : Reply).

Section Middleware.
Context {W : Type} `{CacheService W}.

(** [rateLimit(config)(req, res, next)]: [now] is the time of the check,
    [later] the time at which a refusal computes [Retry-After].  The result
    is whether [next] is called, the headers set, the log calls, and the
    state of the cache. *)
Definition rateLimit (config : RateLimitConfig) (now later : Z) (req : Request)
    (w : W) : Passage * list (string * JsVal) * list Logger.LogCall * W :=
  if match skip config with Some f => f req | None => false end
  then (Passed, [], [], w)
  else
    let key := generateRateLimitKey config req in
    let '(result, logs, w') := checkRateLimit now key config w in
    let headers :=
      [("X-RateLimit-Limit", JNum (maxRequests config));
       ("X-RateLimit-Remaining", JNum (remaining result));
       ("X-RateLimit-Reset", JDate (resetsAt result))] in
    if negb (allowed result) then
      let retryAfter := ceil_div (resetsAt result - later) 1000 in
      (Throttled
         {| status := 429;
            body := [("error", JStr "Too Many Requests");
                     ("message",
                      JStr (nonempty_or (message config)
                              "Too many requests, please try again later."));
                     ("retryAfter", JNum retryAfter)] |},
       (headers ++ [("Retry-After", JNum retryAfter)])%list,
       (logs ++ [Logger.logWarn "Rate limit exceeded"
                   [("path", opt_str_to_js (req_url req));
                    ("method", opt_str_to_js (req_method req));
                    ("ip", JStr (getClientIp req));
                    ("limit", JNum (maxRequests config));
                    ("window", JNum (windowSeconds config))]])%list,
       w')
    else (Passed, headers, logs, w').


(** What [getRateLimitStatus] resolves to, when not to [null]. *)
Record Status := {
  st_count : Z;
  st_remaining : Z;
  st_resetAt : Z
}.

Definition getRateLimitStatus (config : RateLimitConfig) (now : Z) (req : Request)
    (w : W) : option Status * list Logger.LogCall * W :=
  let key := generateRateLimitKey config req in
  match cache_get key
          (Ok {| count := 0; resetAt := now + windowSeconds config * 1000 |})
          {| Cache.memoryTTL := None; Cache.redisTTL := None;
             Cache.skipMemory := None; Cache.skipRedis := Some false |} w with
  | (Ok data, w') =>
      (Some {| st_count := count data;
               st_remaining := Z.max 0 (maxRequests config - count data);
               st_resetAt := resetAt data |}, [], w')
  | (Threw e, w') =>
      (None,
       [Logger.logError "Failed to get rate limit status" (Some e)
          [("key", JStr key)]], w')
  end.

End Middleware.

(** [userRateLimit(userId, config)] *)
Definition userRateLimit (userId : string) (config : RateLimitConfig)
    : RateLimitConfig :=
  {| maxRequests := maxRequests config;
     windowSeconds := windowSeconds config;
     identifier := identifier config;
     keyGenerator := Some (λ _, userId);
     message := message config;
     skip := skip config |}.


End RateLimitMiddleware.

(** ** Invalidation and warming of the tiered cache (lib/redis.ts) *)

Module CacheAdmin.
Import Cache.

Section Admin.
Context {V : Type}.
Variable stringify : V → Res string.

(** [matches pattern key]: the distributed tier's own matching of a key
    against a [KEYS] pattern. *)
Variable matches : string → string → bool.

(** The live keys of the distributed tier the pattern matches. *)
Definition redis_keys (now : Z) (pattern : string) (s : State V) : list string :=
  (map_to_list
     (filter (λ kv, matches pattern kv.1 = true ∧ redis_live now kv.2 = true)
             (redis s))).*1.

(** [CacheService.invalidate(pattern)]: [flush_throws] and [keys_fail] say
    whether flushing the in-process tier and the [KEYS] command fail.  The
    [KEYS] command itself is not recorded in the trace. *)
Definition invalidate (now : Z) (f : Faults) (flush_throws keys_fail : bool)
    (pattern : string) (s : State V) : State V :=
  let s1 :=
    if flush_throws then
      {| mem := mem s; redis := redis s;
         log := Logger.logWarn "Memory cache flush failed"
                  [("pattern", JStr pattern); ("error", JStr "memoryError")]
                :: log s;
         trace := trace s |}
    else {| mem := ∅; redis := redis s; log := log s; trace := trace s |} in
  if redis_available f then
    let failed :=
      {| mem := mem s1; redis := redis s1;
         log := Logger.logWarn "Redis invalidate failed"
                  [("pattern", JStr pattern); ("error", JStr "redisError")]
                :: log s1;
         trace := trace s1 |} in
    if keys_fail then failed
    else
      let keys := redis_keys now pattern s1 in
      match keys with
      | [] => s1
      | _ :: _ =>
          if redis_del_fails f then failed
          else
            {| mem := mem s1;
               redis := filter (λ kv, ¬ (matches pattern kv.1 = true
                                         ∧ redis_live now kv.2 = true))
                               (redis s1);
               log := Logger.logInfo
                        ("Invalidated " +:+ pretty (length keys) +:+ " Redis keys")
                        [("pattern", JStr pattern)]
                      :: log s1;
               trace := ((EvRedisDel <$> keys) ++ trace s1)%list |}
      end
  else s1.

End Admin.

Section Decorator.
Context {V : Type}.
Variable unwrap : V → V.
Variable stringify : V → Res string.
Variable parse : string → option V.

End Decorator.

End CacheAdmin.

(** ** The connection to the distributed tier (lib/redis.ts) *)

Module RedisConnection.

Definition RECONNECTION_COOLDOWN : Z := 5000.

(** The module-level flags, and [redis.status] as the client reports it. *)
Record Conn := {
  isRedisConnected : bool;
  isRedisConnecting : bool;
  lastConnectionAttempt : Z;
  status : string
}.

Definition initial : Conn :=
  {| isRedisConnected := false; isRedisConnecting := false;
     lastConnectionAttempt := 0; status := "wait" |}.

(** The events of the client the module listens to. *)
Inductive RedisEvent :=
| OnConnect | OnReady | OnError (e : string) | OnClose
| OnReconnecting (delay : Z) | OnEnd.

(** The listeners: what an event does to the flags; the client has set its
    own status to [st] by then. *)
Definition on (ev : RedisEvent) (st : string) (c : Conn) : Conn :=
  match ev with
  | OnConnect =>
      {| isRedisConnected := true; isRedisConnecting := false;
         lastConnectionAttempt := lastConnectionAttempt c; status := st |}
  | OnReady =>
      {| isRedisConnected := true; isRedisConnecting := isRedisConnecting c;
         lastConnectionAttempt := lastConnectionAttempt c; status := st |}
  | OnError _ =>
      {| isRedisConnected := isRedisConnected c;
         isRedisConnecting := isRedisConnecting c;
         lastConnectionAttempt := lastConnectionAttempt c; status := st |}
  | OnClose =>
      {| isRedisConnected := false; isRedisConnecting := isRedisConnecting c;
         lastConnectionAttempt := lastConnectionAttempt c; status := st |}
  | OnReconnecting _ =>
      {| isRedisConnected := isRedisConnected c; isRedisConnecting := true;
         lastConnectionAttempt := lastConnectionAttempt c; status := st |}
  | OnEnd =>
      {| isRedisConnected := false; isRedisConnecting := false;
         lastConnectionAttempt := lastConnectionAttempt c; status := st |}
  end.

(** What the listeners log; [host], [port] and [db] are the settings of the
    environment, with their defaults. *)
Definition on_log (host port db : string) (ev : RedisEvent) : Logger.LogCall :=
  match ev with
  | OnConnect =>
      Logger.logInfo "Redis connection established"
        [("host", JStr host); ("port", JStr port); ("db", JStr db)]
  | OnReady => Logger.logInfo "Redis client ready" []
  | OnError e =>
      Logger.logError "Redis connection error" (Some e)
        [("host", JStr host); ("port", JStr port)]
  | OnClose => Logger.logWarn "Redis connection closed" []
  | OnReconnecting delay =>
      Logger.logInfo ("Redis reconnecting in " +:+ pretty delay +:+ "ms") []
  | OnEnd => Logger.logWarn "Redis connection ended" []
  end.

Definition isRedisAvailable (c : Conn) : bool :=
  isRedisConnected c && String.eqb (status c) "ready".

(** [connectRedis()] at time [now]; [connects] says whether
    [redis.connect()] resolves.  The result, whether [redis.connect()] was
    called at all, the log calls, and the flags afterwards. *)
Definition connectRedis (now : Z) (connects : bool) (c : Conn)
    : bool * bool * list Logger.LogCall * Conn :=
  if isRedisConnecting c then
    (false, false, [Logger.logWarn "Redis connection already in progress" []], c)
  else if now - lastConnectionAttempt c <? RECONNECTION_COOLDOWN then
    (false, false,
     [Logger.logWarn "Redis reconnection cooldown active"
        [("cooldownRemaining",
          JNum (RECONNECTION_COOLDOWN - (now - lastConnectionAttempt c)))]],
     c)
  else if connects then
    (true, true, [],
     {| isRedisConnected := isRedisConnected c; isRedisConnecting := true;
        lastConnectionAttempt := now; status := status c |})
  else
    (false, true,
     [Logger.logError "Failed to connect to Redis" (Some "connectError") []],
     {| isRedisConnected := isRedisConnected c; isRedisConnecting := false;
        lastConnectionAttempt := now; status := status c |}).

(** What happens to the connection, one thing after the other. *)
Inductive Step :=
| Event (ev : RedisEvent) (st : string)
| Connect (now : Z) (connects : bool).

(** The times at which [redis.connect()] was called, in order, and the
    flags at the end. *)
Fixpoint run (steps : list Step) (c : Conn) : list Z * Conn :=
  match steps with
  | [] => ([], c)
  | Event ev st :: rest => run rest (on ev st c)
  | Connect now connects :: rest =>
      let '(_, attempted, _, c') := connectRedis now connects c in
      let '(times, c'') := run rest c' in
      (if attempted then now :: times else times, c'')
  end.

(** [retryStrategy(times)]: the delay before the next automatic retry, or
    [None] for giving up, with the log calls. *)
Definition retryStrategy (times : Z) : option Z * list Logger.LogCall :=
  let delay := Z.min (times * 50) 2000 in
  let attempt :=
    Logger.logWarn ("Redis retry attempt " +:+ pretty times +:+ ", waiting "
                    +:+ pretty delay +:+ "ms")
      [("attempt", JNum times); ("delay", JNum delay)] in
  if 10 <? times then
    (None,
     [attempt;
      Logger.logError "Redis max retry attempts reached, giving up" None
        [("attempts", JNum times)]])
  else (Some delay, [attempt]).

End RedisConnection.

(** ** Restoring and listing soft-deleted records (lib/soft-delete.ts) *)

Module SoftDeleteHelpers.
Import SoftDelete.

(** [{ ...where, deletedAt: { not: null } }] *)
Definition trashed (w : gmap string JsVal) : gmap string JsVal :=
  <[ "deletedAt" := JObj [("not", JNull)] ]> w.

(** The [updateMany] that [restore] sends through the model's delegate,
    taken to be the delegate of the model named. *)
Definition restore_query (model : string) (w : gmap string JsVal) : Params :=
  {| model := Some model;
     action := UpdateMany;
     args := {| where_ := Some (trashed w);
                data := Some {[ "deletedAt" := JNull ]};
                other := ∅ |} |}.

Section Restore.
(** [delegates name]: the data-access handle has a property [name];
    [send q]: what sending a query through the delegate yields. *)
Variable delegates : string → bool.
Variable send : Params → Res unit.

(** [restore(model, where)]: the result, the log calls, the queries sent. *)
Definition restore (model : string) (w : gmap string JsVal)
    : bool * list Logger.LogCall * list Params :=
  let failed (e : string) (sent : list Params) :=
    (false,
     [Logger.logWarn "Restore failed"
        [("model", JStr model); ("where", JObj (map_to_list w)); ("error", JStr e)]],
     sent) in
  if negb (delegates (toLowerCase model)) then
    failed ("Model " +:+ model +:+ " not found") []
  else
    let q := restore_query model w in
    match send q with
    | Ok _ =>
        (true,
         [Logger.logInfo "Record restored"
            [("model", JStr model); ("where", JObj (map_to_list w))]],
         [q])
    | Threw e => failed e [q]
    end.
End Restore.

(** The options of [findDeleted]. *)
Record FindOptions := {
  fo_where : option (gmap string JsVal);
  fo_orderBy : option JsVal;
  fo_take : option Z;
  fo_skip : option Z
}.

Definition opt_num_to_js (o : option Z) : JsVal :=
  match o with Some z => JNum z | None => JUndefined end.

(** The [findMany] that [findDeleted(model, options)] sends; without a
    delegate for the model it throws instead. *)
Definition findDeleted (delegates : string → bool) (model : string)
    (options : option FindOptions) : Res Params :=
  if negb (delegates (toLowerCase model)) then
    Threw ("Model " +:+ model +:+ " not found")
  else
    Ok {| model := Some model;
          action := FindMany;
          args :=
            {| where_ := Some (trashed (default ∅ (options ≫= fo_where)));
               data := None;
               other :=
                 {[ "orderBy" := default (JObj [("deletedAt", JStr "desc")])
                                         (options ≫= fo_orderBy);
                    "take" := opt_num_to_js (options ≫= fo_take);
                    "skip" := opt_num_to_js (options ≫= fo_skip) ]} |} |}.

(** The [count] that [countDeleted(model, where)] sends. *)
Definition countDeleted (delegates : string → bool) (model : string)
    (w : option (gmap string JsVal)) : Res Params :=
  if negb (delegates (toLowerCase model)) then
    Threw ("Model " +:+ model +:+ " not found")
  else
    Ok {| model := Some model;
          action := Count;
          args := {| where_ := Some (trashed (default ∅ w));
                     data := None;
                     other := ∅ |} |}.

(** [getDeletionInfo(record)] at time [now]. *)
Record DeletionInfo := {
  di_isDeleted : bool;
  di_deletedAt : option Z;
  di_daysSinceDeleted : option Z
}.

Section Info.
(** [time_of v]: [new Date(v).getTime()]. *)
Variable time_of : JsVal → Z.

Definition getDeletionInfo (now : Z) (record : option (gmap string JsVal))
    : DeletionInfo :=
  if negb (isDeleted record) then
    {| di_isDeleted := false; di_deletedAt := None; di_daysSinceDeleted := None |}
  else
    let deletedAt := time_of (js_get (default ∅ record) "deletedAt") in
    {| di_isDeleted := true;
       di_deletedAt := Some deletedAt;
       di_daysSinceDeleted := Some ((now - deletedAt) / ApiDeprecation.MS_PER_DAY) |}.
End Info.

End SoftDeleteHelpers.

(** ** Server initialization (the module that calls
    [setupSoftDeleteMiddleware]) *)

Module ServerInit.

(** The two middlewares [setupSoftDeleteMiddleware] registers, in this
    order, with [prisma.$use]. *)
Inductive Middleware := DeleteMiddleware | ReadMiddleware.

(** The module-level flag, and the middlewares registered with the
    data-access handle, the first registered first. *)
Record Server := {
  initialized : bool;
  registered : list Middleware
}.

(** How a call of [setupSoftDeleteMiddleware] goes: both registrations
    succeed, or the first or the second [prisma.$use] throws. *)
Inductive Setup :=
| Completes
| FirstUseThrows (e : string)
| SecondUseThrows (e : string).

(** [setupSoftDeleteMiddleware()]: the result, the log calls, and the
    middlewares registered afterwards.  A registration made before a
    failure stays. *)
Definition setupSoftDeleteMiddleware (how : Setup) (before : list Middleware)
    : Res unit * list Logger.LogCall * list Middleware :=
  match how with
  | FirstUseThrows e => (Threw e, [], before)
  | SecondUseThrows e => (Threw e, [], (before ++ [DeleteMiddleware])%list)
  | Completes =>
      (Ok tt,
       [Logger.logInfo "Soft delete middleware initialized"
          [("models", JArr (JStr <$> SoftDelete.SOFT_DELETE_MODELS))]],
       (before ++ [DeleteMiddleware; ReadMiddleware])%list)
  end.

(** [initializeServer()]: [validates] is what [validateEnv()] yields, [how]
    is how the call of [setupSoftDeleteMiddleware()] goes, if it is
    reached.  The result is [Threw] when the error is thrown on. *)
Definition initializeServer (validates : Res unit) (how : Setup) (s : Server)
    : Res unit * list Logger.LogCall * Server :=
  if initialized s then (Ok tt, [], s)
  else
    let failed (e : string) (logs : list Logger.LogCall) (s' : Server) :=
      (Threw e,
       (logs ++ [Logger.logInfo "Server initialization failed"
                   [("error", JStr e)]])%list,
       s') in
    let start :=
      [Logger.logInfo "Initializing server..." [];
       Logger.logInfo "Validating environment variables..." []] in
    match validates with
    | Threw e => failed e start s
    | Ok _ =>
        let validated :=
          (start ++ [Logger.logInfo "Environment variables validated successfully" [];
                     Logger.logInfo "Setting up soft delete middleware..." []])%list in
        match setupSoftDeleteMiddleware how (registered s) with
        | (Threw e, logs, middlewares) =>
            failed e (validated ++ logs)%list
              {| initialized := false; registered := middlewares |}
        | (Ok _, logs, middlewares) =>
            (Ok tt,
             (validated ++ logs
              ++ [Logger.logInfo "Soft delete middleware initialized successfully" [];
                  Logger.logInfo "Server initialization completed successfully" []])%list,
             {| initialized := true; registered := middlewares |})
        end
    end.

(** Calls of [initializeServer], one after the other. *)
Fixpoint initializations (calls : list (Res unit * Setup)) (s : Server)
    : Server :=
  match calls with
  | [] => s
  | (validates, how) :: rest =>
      initializations rest (initializeServer validates how s).2
  end.

(** The server as the module is loaded. *)
Definition fresh : Server := {| initialized := false; registered := [] |}.

(** The call of [setupSoftDeleteMiddleware] does not fail between its two
    registrations. *)
Definition all_or_nothing (call : Res unit * Setup) : Prop :=
  match call.2 with
  | SecondUseThrows _ => False
  | _ => True
  end.

End ServerInit.

(** ** The sign-in route (the handler that wraps NextAuth with
    [rateLimit(authRateLimit)]) *)

Module AuthRoute.
Import RateLimit RateLimitMiddleware.

(** Only [POST]s whose URL contains [/signin] or [/callback/credentials]
    are rate limited. *)
Definition isLimited (req : Request) : bool :=
  match req_url req with
  | Some url => Csrf.includes url "/signin"
                || Csrf.includes url "/callback/credentials"
  | None => false
  end
  && match req_method req with
     | Some m => String.eqb m "POST"
     | None => false
     end.

Section Route.
Context {W : Type} `{CacheService W}.

(** The route: whether the sign-in handler runs, what the limiter set and
    logged, and the state of the cache. *)
Definition handler (now later : Z) (req : Request) (w : W)
    : Passage * list (string * JsVal) * list Logger.LogCall * W :=
  if isLimited req then rateLimit authRateLimit now later req w
  else (Passed, [], [], w).
End Route.

End AuthRoute.

(** ** Vocabulary of the further properties *)


(** Successive calls of [redis.connect()] are at least the cooldown apart,
    the first of them from [prev]. *)
Fixpoint spaced (prev : Z) (times : list Z) : Prop :=
  match times with
  | [] => True
  | t :: rest => prev + RedisConnection.RECONNECTION_COOLDOWN ≤ t ∧ spaced t rest
  end.

(** The character occurs in the string. *)
Fixpoint has_char (c : ascii) (s : string) : bool :=
  match s with
  | EmptyString => false
  | String a s' => Ascii.eqb a c || has_char c s'
  end.

(** The [skip] condition of the configuration holds of the request. *)
Definition exempt (config : RateLimit.RateLimitConfig) (req : Request) : bool :=
  match RateLimit.skip config with
  | Some f => f req
  | None => false
  end.

(** The middleware called [next]. *)
Definition passed (p : RateLimitMiddleware.Passage) : bool :=
  match p with
  | RateLimitMiddleware.Passed => true
  | RateLimitMiddleware.Throttled _ => false
  end.

(** Successive arrivals of one request at the middleware, over the tiered
    cache: each at its own time and with its own faults, and with the time
    at which a refusal would compute [Retry-After]. *)
Section Requests.
Variable stringify : RateLimit.RateLimitData → Res string.
Variable parse : string → option RateLimit.RateLimitData.

Fixpoint requests (config : RateLimit.RateLimitConfig) (req : Request)
    (calls : list (Z * Cache.Faults * Cache.Faults * Z))
    (s : Cache.State RateLimit.RateLimitData)
    : list RateLimitMiddleware.Passage * Cache.State RateLimit.RateLimitData :=
  match calls with
  | [] => ([], s)
  | (now, fget, fset, later) :: rest =>
      let '(p, _, _, s1) :=
        @RateLimitMiddleware.rateLimit _
          (RateLimit.tiered stringify parse now fget fset) config now later req s in
      let '(ps, s2) := requests config req rest s1 in
      (p :: ps, s2)
  end.
End Requests.


(** * Properties *)

(** ** Logger *)

(** With [LOG_LEVEL] unset, warnings and errors reach the console. *)
Lemma default_level_prints_warnings (production : bool) (l : Logger.LogLevel) :
  l = Logger.WARN ∨ l = Logger.ERROR →
  Logger.shouldLog (Logger.currentLevel None production) l = true.
Proof. intros [-> | ->]; destruct production; reflexivity. Qed.

(** ** API version router *)

Section VersionRouter.
Import ApiVersioning.

Lemma current_version_supported : isSupportedVersion CURRENT_VERSION = true.
Proof. reflexivity. Qed.

Lemma accepted_supported (h : option HeaderVal) (v : string) :
  accepted h = Some v → isSupportedVersion v = true.
Proof.
  destruct h as [[s|l]|]; simpl; try discriminate.
  destruct (negb (String.eqb s "") && isSupportedVersion s) eqn:E; try discriminate.
  intros [= <-]. apply andb_true_iff in E. tauto.
Qed.

Lemma getApiVersion_supported (req : Request) :
  isSupportedVersion (getApiVersion req) = true.
Proof.
  unfold getApiVersion.
  destruct (accepted (js_or _ _)) as [v|] eqn:Eh.
  { eapply accepted_supported, Eh. }
  destruct (accepted (req_query req !! "version")) as [v|] eqn:Eq.
  { eapply accepted_supported, Eq. }
  destruct (path_match _) as [v|]; [|apply current_version_supported].
  destruct (isSupportedVersion v) eqn:Ev; [exact Ev|apply current_version_supported].
Qed.

Example bare_request_gets_current : getApiVersion Samples.bare = "v1".
Proof. reflexivity. Qed.

(** The capture group of the path pattern, on some paths. *)
Example path_match_v2 : path_match "/api/v2/products" = Some "v2".
Proof. reflexivity. Qed.

Example path_match_leftmost : path_match "/x/api/v/api/v10/api/v3/" = Some "v10".
Proof. reflexivity. Qed.

Example path_match_none : path_match "/api/v2" = None.
Proof. reflexivity. Qed.

(** C10. Version resolution always returns a member of the supported
    version set, for every request; consequently the dispatcher never
    takes its unsupported-version branch (the reply with status 400),
    whatever the handlers of the endpoint are. *)
Theorem resolved_version_is_supported :
  ∀ (Handler : Type) (handlers : list (string * Handler)) (req : Request),
    isSupportedVersion (getApiVersion req) = true ∧
    is_unsupported_rejection (versionedHandler handlers req).1 = false.
Proof.
  intros Handler handlers req.
  pose proof (getApiVersion_supported req) as Hs.
  split; [exact Hs|].
  unfold versionedHandler. rewrite Hs. simpl.
  destruct (handler_for handlers (getApiVersion req)); reflexivity.
Qed.

(** A request that names only unsupported versions is resolved to the
    current version. *)
Lemma unsupported_request_resolves_to_current (req : Request) :
  accepted (js_or (req_headers req !! "x-api-version")
                  (req_headers req !! "accept-version")) = None →
  accepted (req_query req !! "version") = None →
  (∀ v, path_match (default "" (req_url req)) = Some v →
        isSupportedVersion v = false) →
  getApiVersion req = CURRENT_VERSION.
Proof.
  intros Hh Hq Hp. unfold getApiVersion. rewrite Hh, Hq.
  destruct (path_match _) as [v|] eqn:E; [|reflexivity].
  rewrite (Hp v eq_refl). reflexivity.
Qed.

(** Whatever version a request asks for, an endpoint that implements v1
    serves it as v1. *)
Lemma every_request_is_served_as_v1 {Handler}
    (handlers : list (string * Handler)) (handler : Handler) (req : Request) :
  handler_for handlers "v1" = Some handler →
  versionedHandler handlers req
  = (Invoke handler [("X-API-Version", "v1");
                     ("X-API-Current-Version", "v1");
                     ("X-API-Supported-Versions", "v1")],
     []).
Proof.
  intros Hh. pose proof (getApiVersion_supported req) as Hs.
  assert (Hv : getApiVersion req = "v1").
  { unfold isSupportedVersion in Hs. apply bool_decide_eq_true in Hs.
    unfold SUPPORTED_VERSIONS in Hs. apply list_elem_of_singleton in Hs. exact Hs. }
  unfold versionedHandler. rewrite Hs, Hv, Hh. reflexivity.
Qed.

(** C3. A request carrying [X-API-Version: v99], a version outside the
    supported set, is not rejected with status 400: the dispatcher runs
    the handler of version v1 and labels the response as v1. *)
Theorem unsupported_version_is_served :
  versionedHandler [("v1", tt)] Samples.asks_v99
  = (Invoke tt [("X-API-Version", "v1");
                ("X-API-Current-Version", "v1");
                ("X-API-Supported-Versions", "v1")],
     []).
Proof. vm_compute. reflexivity. Qed.

(** The same with every source of the version naming an unsupported one. *)
Example unsupported_everywhere_is_served :
  versionedHandler [("v1", tt)] Samples.asks_everywhere
  = (Invoke tt [("X-API-Version", "v1");
                ("X-API-Current-Version", "v1");
                ("X-API-Supported-Versions", "v1")],
     []).
Proof. vm_compute. reflexivity. Qed.

End VersionRouter.

(** ** Soft-delete interceptor *)

Section Interceptor.
Import SoftDelete.

Lemma default_live_where (q : Params) :
  where_ (args (default_live q))
  = if has_deletedAt (where_ (args q)) then where_ (args q)
    else with_live_filter (where_ (args q)).
Proof.
  unfold default_live, has_deletedAt, with_live_filter.
  destruct (where_ (args q)) as [w|] eqn:E; simpl.
  - destruct (is_undefined (js_get w "deletedAt")); simpl; [reflexivity|exact E].
  - rewrite insert_empty. reflexivity.
Qed.

Lemma default_live_action (q : Params) : action (default_live q) = action q.
Proof.
  unfold default_live.
  destruct (where_ (args q)); [destruct (is_undefined _)|]; reflexivity.
Qed.

Lemma read_filter_on_collections (p : Params) :
  supportsSoftDelete (default "" (model p)) = true →
  action p = FindMany ∨ action p = Count ∨ action p = Aggregate →
  where_ (args (readMiddleware p))
  = if has_deletedAt (where_ (args p)) then where_ (args p)
    else with_live_filter (where_ (args p)).
Proof.
  intros Hm Ha. rewrite <- default_live_where.
  unfold readMiddleware. rewrite Hm. cbn [negb].
  destruct p as [m a ar]. cbn [action] in Ha.
  destruct Ha as [->|[->| ->]];
    repeat (rewrite ?default_live_action; cbn [action decide decide_rel]; simpl);
    reflexivity.
Qed.

Lemma read_filter_on_single (p : Params) :
  supportsSoftDelete (default "" (model p)) = true →
  action p = FindUnique ∨ action p = FindFirst →
  where_ (args (readMiddleware p)) = with_live_filter (where_ (args p)).
Proof.
  intros Hm Ha. unfold readMiddleware. rewrite Hm. cbn [negb].
  destruct p as [m a ar]. cbn [action] in Ha.
  destruct Ha as [->| ->]; reflexivity.
Qed.

(** C1. [findFirst] on a declared model with the explicit clause
    [deletedAt: { not: null }]: the interceptor replaces the clause with
    [deletedAt: null], whereas [findMany] with the same criteria keeps it. *)
Theorem explicit_clause_overwritten_on_findFirst :
  where_ (args (intercept 0 Samples.find_trashed_user).1)
  = Some {[ "id" := JStr "u1"; "deletedAt" := JNull ]}
  ∧ where_ (args (intercept 0 Samples.list_trashed_users).1)
  = Some {[ "id" := JStr "u1"; "deletedAt" := JObj [("not", JNull)] ]}.
Proof. split; vm_compute; reflexivity. Qed.

(** What the first middleware makes of a delete. *)
Lemma deleteMiddleware_rewrites (now : Z) (p : Params) :
  supportsSoftDelete (default "" (model p)) = true →
  action p = Delete ∨ action p = DeleteMany →
  (deleteMiddleware now p).1 = to_update (soft_action (action p)) now p.
Proof.
  intros Hm Ha. unfold deleteMiddleware. rewrite Hm. cbn [negb].
  destruct p as [m a ar]. cbn [action] in Ha.
  destruct Ha as [->| ->]; reflexivity.
Qed.

(** The second middleware leaves updates alone. *)
Lemma readMiddleware_update (p : Params) :
  action p = Update ∨ action p = UpdateMany → readMiddleware p = p.
Proof.
  intros Ha. unfold readMiddleware.
  destruct (supportsSoftDelete _); [|reflexivity]. cbn [negb].
  destruct p as [m a ar]. cbn [action] in Ha.
  destruct Ha as [->| ->]; reflexivity.
Qed.

(** An update removes no row and touches only the columns of its payload. *)
Lemma run_update_keeps_rows selects (p : Params) (table : list (gmap string JsVal)) :
  action p = Update ∨ action p = UpdateMany →
  length (run_query selects p table) = length table ∧
  ∀ (i : nat) (row : gmap string JsVal),
    table !! i = Some row →
    ∃ row', run_query selects p table !! i = Some row' ∧
            ∀ k, default ∅ (data (args p)) !! k = None → row' !! k = row !! k.
Proof.
  intros Ha.
  assert (Hq : run_query selects p table
               = (λ row, if selects (where_ (args p)) row
                         then default ∅ (data (args p)) ∪ row else row) <$> table).
  { unfold run_query. destruct Ha as [->| ->]; reflexivity. }
  rewrite Hq. split; [apply length_fmap|].
  intros i row Hi. rewrite list_lookup_fmap, Hi. simpl.
  eexists; split; [reflexivity|].
  intros k Hk. destruct (selects _ row); [|reflexivity].
  rewrite lookup_union_r by exact Hk. reflexivity.
Qed.

(** The scenario of the migration guide: delete a user, then look the
    deleted record up with [findFirst] and an explicit
    [deletedAt: { not: null }].  The guide expects the record; the
    intercepted query finds nothing, though the criteria as written select
    the record. *)
Example documented_lookup_of_deleted_record :
  let table :=
    run_query Samples.selects_where
      (intercept 1700000000000 Samples.delete_user).1 Samples.users in
  Samples.find_first (intercept 1700000000001 Samples.find_trashed_user).1 table
  = None
  ∧ Samples.find_first Samples.find_trashed_user table
    = Some {[ "id" := JStr "u1"; "deletedAt" := JDate 1700000000000 ]}.
Proof. split; vm_compute; reflexivity. Qed.

(** A delete-one or delete-many operation that was called with an
    arguments object reaches the query engine, on a declared soft-delete
    model, as an update (respectively update-many) whose payload sets
    [deletedAt] to the current time; the criteria, the model and every
    other argument are unchanged.  Run on a table, the rewritten operation
    removes no row: every row is still at its place and differs at most in
    its [deletedAt] column. *)
Theorem delete_becomes_timestamped_update :
  ∀ (now : Z) (p : Params),
    supportsSoftDelete (default "" (model p)) = true →
    action p = Delete ∨ action p = DeleteMany →
    let p' := (intercept now p).1 in
    action p' = soft_action (action p) ∧
    (action p' = Update ∨ action p' = UpdateMany) ∧
    data (args p') = Some {[ "deletedAt" := JDate now ]} ∧
    where_ (args p') = where_ (args p) ∧
    model p' = model p ∧
    other (args p') = other (args p) ∧
    ∀ (selects : option (gmap string JsVal) → gmap string JsVal → bool)
      (table : list (gmap string JsVal)),
      length (run_query selects p' table) = length table ∧
      ∀ (i : nat) (row : gmap string JsVal),
        table !! i = Some row →
        ∃ row', run_query selects p' table !! i = Some row' ∧
                ∀ k, k ≠ "deletedAt" → row' !! k = row !! k.
Proof.
  intros now p Hm Ha p'.
  assert (Hp : p' = to_update (soft_action (action p)) now p).
  { subst p'. unfold intercept.
    pose proof (deleteMiddleware_rewrites now p Hm Ha) as Hd.
    destruct (deleteMiddleware now p) as [q logs]. simpl in Hd. subst q. simpl.
    apply readMiddleware_update. simpl. destruct Ha as [->| ->]; auto. }
  assert (Hu : action p' = Update ∨ action p' = UpdateMany).
  { rewrite Hp. simpl. destruct Ha as [->| ->]; auto. }
  split; [rewrite Hp; reflexivity|].
  split; [exact Hu|].
  repeat (split; [rewrite Hp; reflexivity|]).
  intros selects table.
  destruct (run_update_keeps_rows selects p' table Hu) as [Hlen Hrows].
  split; [exact Hlen|].
  intros i row Hi. destruct (Hrows i row Hi) as (row' & Hr & Hk).
  exists row'. split; [exact Hr|].
  intros k Hne. apply Hk. rewrite Hp. simpl.
  apply lookup_singleton_ne. congruence.
Qed.

Lemma delete_becomes_timestamped_update_witness :
  supportsSoftDelete (default "" (model Samples.delete_user)) = true ∧
  (action Samples.delete_user = Delete ∨ action Samples.delete_user = DeleteMany) ∧
  let p' := (intercept 1700000000000 Samples.delete_user).1 in
  action p' = Update ∧
  where_ (args p') = Some {[ "id" := JStr "u1" ]} ∧
  length (run_query Samples.selects_by_id p' Samples.users) = 2%nat.
Proof.
  assert (Hm : supportsSoftDelete (default "" (model Samples.delete_user)) = true)
    by (vm_compute; reflexivity).
  assert (Ha : action Samples.delete_user = Delete
               ∨ action Samples.delete_user = DeleteMany)
    by (left; reflexivity).
  split; [exact Hm|]. split; [exact Ha|].
  destruct (delete_becomes_timestamped_update 1700000000000 Samples.delete_user Hm Ha)
    as (Hact & _ & _ & Hw & _ & _ & Hq).
  split; [exact Hact|]. split; [exact Hw|].
  exact (proj1 (Hq Samples.selects_by_id Samples.users)).
Defined.

(** The soft-deleted row is still in the table, now with a timestamp. *)
Example delete_user_then_table :
  run_query Samples.selects_by_id
    (intercept 1700000000000 Samples.delete_user).1 Samples.users
  = [ {[ "id" := JStr "u1"; "deletedAt" := JDate 1700000000000 ]};
      {[ "id" := JStr "u2"; "deletedAt" := JNull ]} ].
Proof. vm_compute. reflexivity. Qed.

(** A delete called without arguments on a declared model is rejected by
    the first middleware. *)
Lemma delete_without_arguments_throws (now : Z) (c : Call) :
  supportsSoftDelete (default "" (call_model c)) = true →
  call_action c = Delete ∨ call_action c = DeleteMany →
  call_args c = None →
  interceptCall now c = Threw no_args_error.
Proof.
  intros Hm Ha Hn. unfold interceptCall, deleteMiddlewareCall.
  rewrite Hn, Hm. cbn [negb].
  destruct Ha as [-> | ->]; reflexivity.
Qed.

(** With an arguments object the middlewares on a call are the
    middlewares on its parameters. *)
Lemma interceptCall_with_arguments (now : Z) (c : Call) (a : Args) :
  call_args c = Some a →
  interceptCall now c
  = Ok (call_of (intercept now (with_args c a)).1, (intercept now (with_args c a)).2).
Proof.
  intros Ha. unfold interceptCall, deleteMiddlewareCall, readMiddlewareCall, intercept.
  rewrite Ha. destruct (deleteMiddleware now (with_args c a)) as [[m act ar] logs].
  reflexivity.
Qed.

(** C4. [deleteMany()] called without arguments on a declared model is not
    rewritten into an update-many: the first middleware throws a
    [TypeError] when it reads [params.args.where] for its log call, so the
    operation is rejected, nothing is logged and no row is given a
    [deletedAt].  The same operation called with an empty arguments
    object, [deleteMany({})], is rewritten as the specification says. *)
Theorem deleteMany_without_arguments_throws :
  interceptCall 1700000000000
    {| call_model := Some "User"; call_action := DeleteMany; call_args := None |}
  = Threw "Cannot read properties of undefined (reading 'where')"
  ∧ interceptCall 1700000000000
      {| call_model := Some "User"; call_action := DeleteMany;
         call_args := Some {| where_ := None; data := None; other := ∅ |} |}
    = Ok ({| call_model := Some "User"; call_action := UpdateMany;
             call_args :=
               Some {| where_ := None;
                       data := Some {[ "deletedAt" := JDate 1700000000000 ]};
                       other := ∅ |} |},
          [Logger.logInfo "Soft delete: Converting deleteMany to updateMany"
             [("model", JStr "User"); ("where", JUndefined)]]).
Proof. split; vm_compute; reflexivity. Qed.

(** C5. [hardDelete] called with an empty filter fails before any statement
    is handed to the database: it returns [false], issues nothing, and logs
    the failure, whatever the model, the context and the database are. *)
Theorem hardDelete_rejects_empty_filter :
  ∀ (delegates : string → bool) (executeRaw : RawQuery → Res Z)
    (model : string) (context : list (string * JsVal)),
    let '(deleted, logs, issued) :=
      hardDelete delegates executeRaw model [] context in
    deleted = false ∧ issued = [] ∧
    ∃ reason,
      logs = [Logger.logWarn "Hard delete operation"
                ([("model", JStr model); ("where", JObj [])] ++ context)%list;
              Logger.logWarn "Hard delete failed"
                [("model", JStr model); ("where", JObj []); ("error", JStr reason)]].
Proof.
  intros delegates executeRaw model context. unfold hardDelete.
  destruct (delegates (toLowerCase model)); simpl; eauto.
Qed.

(** With a filter of one column the template tag is given one piece of
    text and one value, and throws: nothing is issued, though the database
    would accept the statement. *)
Example hardDelete_by_id :
  hardDelete (λ _, true) (λ _, Ok 1) "User" [("id", JStr "u1")] []
  = (false,
     [Logger.logWarn "Hard delete operation"
        [("model", JStr "User"); ("where", JObj [("id", JStr "u1")])];
      Logger.logWarn "Hard delete failed"
        [("model", JStr "User"); ("where", JObj [("id", JStr "u1")]);
         ("error", JStr "Expected 1 strings to have 0 values")]],
     []).
Proof. vm_compute. reflexivity. Qed.

End Interceptor.

(** ** Tiered cache *)

Section TieredCache.
Import Cache.
Context {V : Type}.
Variable unwrap : V → V.
Variable stringify : V → Res string.
Variable parse : string → option V.


Lemma store_redis_mem now f key (v : V) opts msg s :
  mem (store_redis stringify now f key v opts msg s).2 = mem s.
Proof.
  unfold store_redis.
  destruct (negb _ && _); [|reflexivity].
  destruct (stringify v); [destruct (redis_setex_fails f)|]; reflexivity.
Qed.

Lemma store_memory_stores now f key (v : V) opts msg s :
  skips (skipMemory opts) = false → mem_set_throws f = false →
  mem (store_memory now f key v opts msg s).2
  = <[ key := (v, now + ttl_or (memoryTTL opts) 300 * 1000) ]> (mem s).
Proof. intros Hs Hf. unfold store_memory. rewrite Hs, Hf. reflexivity. Qed.

Lemma get_memory_state now f key opts (s : State V) :
  (get_memory unwrap now f key opts s).2 = s.
Proof.
  unfold get_memory, bind, memoryCache_get.
  destruct (skips _); [reflexivity|]. destruct (mem_get_throws f); [reflexivity|].
  destruct (mem s !! key) as [entry|]; [|reflexivity].
  destruct (mem_live now entry); reflexivity.
Qed.

(** A live entry is a hit, with what the in-process cache hands back for
    the value stored. *)
Lemma get_memory_live now f key opts (s : State V) v t :
  skips (skipMemory opts) = false → mem_get_throws f = false →
  mem s !! key = Some (v, t) → mem_live now (v, t) = true →
  get_memory unwrap now f key opts s = (Some (unwrap v), s).
Proof.
  intros Hs Hf Hm Hl. unfold get_memory, bind, memoryCache_get.
  rewrite Hs, Hf, Hm, Hl. reflexivity.
Qed.

Lemma get_memory_hit now f key opts (s : State V) v t :
  skips (skipMemory opts) = false → mem_get_throws f = false →
  mem s !! key = Some (v, t) → mem_live now (v, t) = true →
  unwrap v = v →
  get_memory unwrap now f key opts s = (Some v, s).
Proof.
  intros Hs Hf Hm Hl Hu.
  rewrite (get_memory_live now f key opts s v t Hs Hf Hm Hl), Hu. reflexivity.
Qed.

Lemma get_of_memory_hit now f key fetch options (s : State V) v :
  get_memory unwrap now f key (merge options) s = (Some v, s) →
  get unwrap stringify parse now f key fetch options s = (Ok v, s).
Proof. intros H. unfold get, bind. rewrite H. reflexivity. Qed.

Lemma set_mem now f key (v : V) options s :
  uses_memory options = true → mem_set_throws f = false →
  mem (set stringify now f key v options s).2
  = <[ key := (v, now + ttl_or (memoryTTL (merge options)) 300 * 1000) ]> (mem s).
Proof.
  intros Hu Hf. unfold set, bind.
  destruct (store_memory _ _ _ _ _ _ s) as [[] s1] eqn:E.
  rewrite store_redis_mem.
  change s1 with (tt, s1).2. rewrite <- E.
  apply store_memory_stores; [|exact Hf].
  unfold uses_memory in Hu. apply negb_true_iff in Hu. exact Hu.
Qed.


(** Only the fetch function can make [get] throw. *)
Lemma get_only_fetch_errors now f key fetch options (s : State V) e :
  (get unwrap stringify parse now f key fetch options s).1 = Threw e →
  fetch = Threw e.
Proof.
  unfold get, bind.
  destruct (get_memory _ _ _ _ _ s) as [[v|] s0]; [discriminate|].
  destruct (get_redis _ _ _ _ _ s0) as [[v|] s1]; [discriminate|].
  destruct (emit _ s1) as [[] s2].
  destruct fetch as [fresh|e']; [|simpl; congruence].
  destruct (store_redis _ _ _ _ _ _ _ s2) as [[] s3].
  destruct (store_memory _ _ _ _ _ _ s3) as [[] s4].
  discriminate.
Qed.

Lemma store_memory_redis now f key (v : V) opts msg s :
  redis (store_memory now f key v opts msg s).2 = redis s.
Proof.
  unfold store_memory.
  destruct (skips _); [reflexivity|]. destruct (mem_set_throws f); reflexivity.
Qed.

Lemma store_memory_trace now f key (v : V) opts msg s :
  trace (store_memory now f key v opts msg s).2 = trace s.
Proof.
  unfold store_memory.
  destruct (skips _); [reflexivity|]. destruct (mem_set_throws f); reflexivity.
Qed.

Lemma store_memory_log now f key (v : V) opts msg s :
  log (store_memory now f key v opts msg s).2 = log s ∨
  log (store_memory now f key v opts msg s).2
  = Logger.logWarn msg [("key", JStr key); ("error", JStr "memoryError")] :: log s.
Proof.
  unfold store_memory.
  destruct (skips _); [left; reflexivity|].
  destruct (mem_set_throws f); [right|left]; reflexivity.
Qed.

Lemma store_memory_log_mono now f key (v : V) opts msg s c :
  c ∈ log s → c ∈ log (store_memory now f key v opts msg s).2.
Proof.
  intros Hc. destruct (store_memory_log now f key v opts msg s) as [-> | ->];
    [exact Hc|]. apply elem_of_cons. right. exact Hc.
Qed.

Lemma store_redis_log_mono now f key (v : V) opts msg s c :
  c ∈ log s → c ∈ log (store_redis stringify now f key v opts msg s).2.
Proof.
  intros Hc. unfold store_redis.
  destruct (negb _ && _); [|exact Hc].
  destruct (stringify v); [destruct (redis_setex_fails f)|]; simpl;
    try exact Hc; apply elem_of_cons; right; exact Hc.
Qed.

Lemma store_redis_trace_mono now f key (v : V) opts msg s ev :
  ev ∈ trace s → ev ∈ trace (store_redis stringify now f key v opts msg s).2.
Proof.
  intros Hc. unfold store_redis.
  destruct (negb _ && _); [|exact Hc].
  destruct (stringify v); [destruct (redis_setex_fails f)|]; simpl;
    try exact Hc; apply elem_of_cons; right; exact Hc.
Qed.

(** A write to the distributed tier either leaves an entry alone or
    replaces it with the encoding of the value written. *)
Lemma store_redis_entry now f key (v : V) opts msg s p t :
  redis (store_redis stringify now f key v opts msg s).2 !! key = Some (p, t) →
  redis s !! key = Some (p, t) ∨ stringify v = Ok p.
Proof.
  unfold store_redis.
  destruct (negb _ && _); [|auto].
  destruct (stringify v) as [payload|e]; [|auto].
  destruct (redis_setex_fails f); [auto|].
  simpl. rewrite lookup_insert_eq. intros [= <- _]. auto.
Qed.

(** What [get] does past a miss of both tiers. *)
Lemma get_of_miss now f key fetch options (s s1 : State V) :
  get_memory unwrap now f key (merge options) s = (None, s) →
  get_redis parse now f key (merge options) s = (None, s1) →
  get unwrap stringify parse now f key fetch options s
  = match fetch with
    | Threw e => (Threw e, (emit (EvFetch key) s1).2)
    | Ok fresh =>
        (Ok fresh,
         (store_memory now f key fresh (merge options)
            "Memory cache set failed during fetch"
            (store_redis stringify now f key fresh (merge options)
               "Redis cache set failed" (emit (EvFetch key) s1).2).2).2)
    end.
Proof.
  intros Hm Hr. unfold get, bind. rewrite Hm, Hr. simpl.
  destruct fetch as [fresh|e]; [|reflexivity].
  destruct (store_redis _ _ _ _ _ _ _ _) as [[] s3]. simpl.
  destruct (store_memory _ _ _ _ _ _ s3) as [[] s4]. reflexivity.
Qed.

Lemma get_memory_miss now f key opts (s : State V) :
  (get_memory unwrap now f key opts s).1 = None →
  get_memory unwrap now f key opts s = (None, s).
Proof.
  intros H. rewrite (surjective_pairing (get_memory unwrap now f key opts s)).
  rewrite H, get_memory_state. reflexivity.
Qed.

(** The distributed tier holds a value that does not parse. *)
Lemma get_redis_corrupted now f key opts (s : State V) payload t :
  skips (skipRedis opts) = false → redis_available f = true →
  redis_get_fails f = false →
  redis s !! key = Some (payload, t) → redis_live now (payload, t) = true →
  payload ≠ "" → parse payload = None →
  ∃ s1, get_redis parse now f key opts s = (None, s1) ∧
        mem s1 = mem s ∧
        EvRedisDel key ∈ trace s1 ∧
        Logger.logWarn "Redis cache value parse failed, invalidating"
          [("key", JStr key)] ∈ log s1 ∧
        (if redis_del_fails f
         then Logger.logWarn "Failed to delete corrupted cache entry"
                [("key", JStr key)] ∈ log s1
         else redis s1 !! key = None).
Proof.
  intros Hs Ha Hg Hr Hl Hne Hp. unfold get_redis.
  rewrite Hs, Ha, Hg. simpl. unfold bind, redis_get, bind, emit. simpl.
  rewrite Hr, Hl. simpl.
  destruct (String.eqb payload "") eqn:E; [apply String.eqb_eq in E; contradiction|].
  rewrite Hp. unfold Cache.logWarn. simpl.
  destruct (redis_del_fails f); simpl; eexists; (split; [reflexivity|]); simpl;
    (split; [reflexivity|]); (split; [member|]); (split; [member|]).
  - member.
  - apply lookup_delete_eq.
Qed.

(** The read of the distributed tier fails. *)
Lemma get_redis_command_failure now f key opts (s : State V) :
  skips (skipRedis opts) = false → redis_available f = true →
  redis_get_fails f = true →
  ∃ s1, get_redis parse now f key opts s = (None, s1) ∧
        mem s1 = mem s ∧ redis s1 = redis s ∧
        log s1 = Logger.logWarn "Redis get failed, falling back to fetch"
                   [("key", JStr key); ("error", JStr "redisError")] :: log s.
Proof.
  intros Hs Ha Hg. unfold get_redis. rewrite Hs, Ha, Hg. simpl.
  eexists. split; [reflexivity|]. simpl. auto.
Qed.

(** The distributed tier is reported unavailable: it is not consulted. *)
Lemma get_redis_unavailable now f key opts (s : State V) :
  redis_available f = false → get_redis parse now f key opts s = (None, s).
Proof.
  intros Ha. unfold get_redis. rewrite Ha, andb_false_r. reflexivity.
Qed.

Lemma store_redis_unavailable now f key (v : V) opts msg s :
  redis_available f = false →
  store_redis stringify now f key v opts msg s = (tt, s).
Proof.
  intros Ha. unfold store_redis. rewrite Ha, andb_false_r. reflexivity.
Qed.

Lemma get_corrupted_entry now f key fetch options (s : State V) payload t :
  (get_memory unwrap now f key (merge options) s).1 = None →
  uses_redis options = true → redis_available f = true →
  redis_get_fails f = false →
  redis s !! key = Some (payload, t) → redis_live now (payload, t) = true →
  payload ≠ "" → parse payload = None →
  let '(r, s') := get unwrap stringify parse now f key fetch options s in
  r = fetch ∧
  EvRedisDel key ∈ trace s' ∧
  EvFetch key ∈ trace s' ∧
  Logger.logWarn "Redis cache value parse failed, invalidating"
    [("key", JStr key)] ∈ log s' ∧
  (redis_del_fails f = false →
   ∀ p t', redis s' !! key = Some (p, t') →
           ∃ fresh, fetch = Ok fresh ∧ stringify fresh = Ok p).
Proof.
  intros Hm Hu Ha Hg Hr Hl Hne Hp.
  apply negb_true_iff in Hu.
  destruct (get_redis_corrupted now f key (merge options) s payload t
              Hu Ha Hg Hr Hl Hne Hp) as (s1 & Hs1 & _ & Hdel & Hlog & Hgone).
  rewrite (get_of_miss now f key fetch options s s1 (get_memory_miss _ _ _ _ _ Hm) Hs1).
  destruct fetch as [fresh|e]; simpl.
  - split; [reflexivity|].
    split. { rewrite store_memory_trace. apply store_redis_trace_mono.
             simpl. apply elem_of_cons. right. exact Hdel. }
    split. { rewrite store_memory_trace. apply store_redis_trace_mono.
             simpl. apply elem_of_cons. left. reflexivity. }
    split. { apply store_memory_log_mono, store_redis_log_mono. exact Hlog. }
    intros Hd p t' Hlook. rewrite Hd in Hgone.
    rewrite store_memory_redis in Hlook.
    apply store_redis_entry in Hlook. simpl in Hlook.
    destruct Hlook as [Hold|Hnew]; [congruence|]. eauto.
  - split; [reflexivity|].
    split. { apply elem_of_cons. right. exact Hdel. }
    split. { apply elem_of_cons. left. reflexivity. }
    split. { exact Hlog. }
    intros Hd p t' Hlook. rewrite Hd in Hgone. congruence.
Qed.

Lemma get_command_failure now f key fetch options (s : State V) :
  (get_memory unwrap now f key (merge options) s).1 = None →
  uses_redis options = true → redis_available f = true →
  redis_get_fails f = true →
  let '(r, s') := get unwrap stringify parse now f key fetch options s in
  r = fetch ∧
  Logger.logWarn "Redis get failed, falling back to fetch"
    [("key", JStr key); ("error", JStr "redisError")] ∈ log s'.
Proof.
  intros Hm Hu Ha Hg. apply negb_true_iff in Hu.
  destruct (get_redis_command_failure now f key (merge options) s Hu Ha Hg)
    as (s1 & Hs1 & _ & _ & Hlog).
  rewrite (get_of_miss now f key fetch options s s1 (get_memory_miss _ _ _ _ _ Hm) Hs1).
  destruct fetch as [fresh|e]; simpl; (split; [reflexivity|]).
  - apply store_memory_log_mono, store_redis_log_mono. simpl.
    rewrite Hlog. apply elem_of_cons. left. reflexivity.
  - rewrite Hlog. apply elem_of_cons. left. reflexivity.
Qed.

Lemma get_unavailable now f key fetch options (s : State V) :
  redis_available f = false →
  let '(r, s') := get unwrap stringify parse now f key fetch options s in
  (r = fetch ∨
   ∃ v, r = Ok v ∧ (get_memory unwrap now f key (merge options) s).1 = Some v) ∧
  redis s' = redis s ∧
  (trace s' = trace s ∨ trace s' = EvFetch key :: trace s) ∧
  (log s' = log s ∨
   log s' = Logger.logWarn "Memory cache set failed during fetch"
              [("key", JStr key); ("error", JStr "memoryError")] :: log s).
Proof.
  intros Ha.
  destruct (get_memory unwrap now f key (merge options) s) as [[v|] s0] eqn:Em.
  - assert (s0 = s) as ->
      by (rewrite <- (get_memory_state now f key (merge options) s), Em; reflexivity).
    rewrite (get_of_memory_hit now f key fetch options s v Em). simpl.
    split; [right; eauto|]. auto.
  - assert (s0 = s) as ->
      by (rewrite <- (get_memory_state now f key (merge options) s), Em; reflexivity).
    rewrite (get_of_miss now f key fetch options s s Em
               (get_redis_unavailable now f key (merge options) s Ha)).
    destruct fetch as [fresh|e]; simpl.
    + rewrite (store_redis_unavailable now f key fresh _ _ _ Ha). simpl.
      split; [left; reflexivity|].
      split; [rewrite store_memory_redis; reflexivity|].
      split; [right; rewrite store_memory_trace; reflexivity|].
      exact (store_memory_log now f key fresh (merge options) _
               (emit (EvFetch key) s).2).
    + split; [left; reflexivity|]. auto.
Qed.

Lemma set_command_failure now f key (v : V) options (s : State V) payload :
  uses_redis options = true → redis_available f = true →
  stringify v = Ok payload → redis_setex_fails f = true →
  let s' := (set stringify now f key v options s).2 in
  redis s' = redis s ∧
  Logger.logWarn "Redis set failed"
    [("key", JStr key); ("error", JStr "redisError")] ∈ log s'.
Proof.
  intros Hu Ha Hp Hf. apply negb_true_iff in Hu. unfold set, bind.
  destruct (store_memory _ _ _ _ _ _ s) as [[] s1] eqn:E.
  assert (Hr : redis s1 = redis s).
  { change s1 with (tt, s1).2. rewrite <- E. apply store_memory_redis. }
  unfold store_redis. rewrite Hu, Ha, Hp, Hf. simpl.
  split; [exact Hr|]. apply elem_of_cons. left. reflexivity.
Qed.

Lemma set_unavailable now f key (v : V) options (s : State V) :
  redis_available f = false →
  let s' := (set stringify now f key v options s).2 in
  redis s' = redis s ∧ trace s' = trace s ∧
  (log s' = log s ∨
   log s' = Logger.logWarn "Memory cache set failed"
              [("key", JStr key); ("error", JStr "memoryError")] :: log s).
Proof.
  intros Ha. unfold set, bind.
  destruct (store_memory _ _ _ _ _ _ s) as [[] s1] eqn:E.
  rewrite (store_redis_unavailable now f key v _ _ _ Ha). simpl.
  change s1 with (tt, s1).2. rewrite <- E.
  split; [apply store_memory_redis|].
  split; [apply store_memory_trace|].
  apply store_memory_log.
Qed.

Lemma get_memory_absent now f key opts (s : State V) :
  mem s !! key = None → get_memory unwrap now f key opts s = (None, s).
Proof.
  intros Hm. unfold get_memory, bind, memoryCache_get.
  destruct (skips _); [reflexivity|].
  destruct (mem_get_throws f); [reflexivity|]. rewrite Hm. reflexivity.
Qed.

(** Nothing under the key in the distributed tier: a miss, whatever the
    tier does, and the in-process tier is left alone. *)
Lemma get_redis_absent now f key opts (s : State V) :
  redis s !! key = None →
  ∃ s1, get_redis parse now f key opts s = (None, s1) ∧ mem s1 = mem s.
Proof.
  intros Hr. unfold get_redis.
  destruct (negb _ && _); [|eauto].
  destruct (redis_get_fails f); [eexists; split; reflexivity|].
  unfold bind, redis_get, bind, emit. simpl. rewrite Hr. simpl. eauto.
Qed.
(** C6, as amended.  A [get] never fails because of the distributed tier:
    the only error it raises is the one the fetch function raised.  When
    the stored distributed value fails to decode, a warning is logged, a
    delete of the entry is sent to the distributed tier, the fetch function
    is called and its result returned; if the delete succeeded, whatever
    the tier holds under the key afterwards is the encoding of the fetched
    value.  A failing command degrades to a miss (for [get]) or a skipped
    write (for [set]) with a warning in the log that names the key.  When
    the tier is reported unavailable, [get] and [set] leave it alone and
    log nothing about it: no command is sent, and the only entry the log
    can gain is the warning of a failing in-process write. *)
Theorem tier_failures_stay_inside :
  ∀ (now : Z) (f : Faults) (key : string) (options : CacheOptions) (s : State V),
    (∀ fetch e,
       (get unwrap stringify parse now f key fetch options s).1 = Threw e →
       fetch = Threw e) ∧
    (∀ fetch payload t,
       (get_memory unwrap now f key (merge options) s).1 = None →
       uses_redis options = true → redis_available f = true →
       redis_get_fails f = false →
       redis s !! key = Some (payload, t) → redis_live now (payload, t) = true →
       payload ≠ "" → parse payload = None →
       let '(r, s') := get unwrap stringify parse now f key fetch options s in
       r = fetch ∧
       EvRedisDel key ∈ trace s' ∧
       EvFetch key ∈ trace s' ∧
       Logger.logWarn "Redis cache value parse failed, invalidating"
         [("key", JStr key)] ∈ log s' ∧
       (redis_del_fails f = false →
        ∀ p t', redis s' !! key = Some (p, t') →
                ∃ fresh, fetch = Ok fresh ∧ stringify fresh = Ok p)) ∧
    (∀ fetch,
       (get_memory unwrap now f key (merge options) s).1 = None →
       uses_redis options = true → redis_available f = true →
       redis_get_fails f = true →
       let '(r, s') := get unwrap stringify parse now f key fetch options s in
       r = fetch ∧
       Logger.logWarn "Redis get failed, falling back to fetch"
         [("key", JStr key); ("error", JStr "redisError")] ∈ log s') ∧
    (∀ fetch,
       redis_available f = false →
       let '(r, s') := get unwrap stringify parse now f key fetch options s in
       (r = fetch ∨
        ∃ v, r = Ok v ∧
             (get_memory unwrap now f key (merge options) s).1 = Some v) ∧
       redis s' = redis s ∧
       (trace s' = trace s ∨ trace s' = EvFetch key :: trace s) ∧
       (log s' = log s ∨
        log s' = Logger.logWarn "Memory cache set failed during fetch"
                   [("key", JStr key); ("error", JStr "memoryError")] :: log s)) ∧
    (∀ value payload,
       uses_redis options = true → redis_available f = true →
       stringify value = Ok payload → redis_setex_fails f = true →
       let s' := (set stringify now f key value options s).2 in
       redis s' = redis s ∧
       Logger.logWarn "Redis set failed"
         [("key", JStr key); ("error", JStr "redisError")] ∈ log s') ∧
    (∀ value,
       redis_available f = false →
       let s' := (set stringify now f key value options s).2 in
       redis s' = redis s ∧ trace s' = trace s ∧
       (log s' = log s ∨
        log s' = Logger.logWarn "Memory cache set failed"
                   [("key", JStr key); ("error", JStr "memoryError")] :: log s)).
Proof.
  intros now f key options s.
  split; [intros fetch e; apply get_only_fetch_errors|].
  split; [intros fetch payload t; apply get_corrupted_entry|].
  split; [intros fetch; apply get_command_failure|].
  split; [intros fetch; apply get_unavailable|].
  split; [intros value payload; apply set_command_failure|].
  intros value; apply set_unavailable.
Qed.
End TieredCache.

Section CacheRuns.
Import Cache.

(** What the sample of a corrupted entry computes to. *)
Example corrupted_entry_run :
  get as_stored Json.stringify_number Json.parse_number 0 healthy "k"
    (Ok 7) noOptions CacheSamples.corrupted
  = (Ok 7,
     {| mem := {[ "k" := (7, 300000) ]};
        redis := {[ "k" := ("7", 3600000) ]};
        log := [Logger.logWarn "Redis cache value parse failed, invalidating"
                  [("key", JStr "k")]];
        trace := [EvRedisSetex "k" 3600 "7"; EvFetch "k";
                  EvRedisDel "k"; EvRedisGet "k"] |}).
Proof. vm_compute. reflexivity. Qed.

Lemma tier_failures_stay_inside_witness :
  let '(r, s') :=
    get as_stored Json.stringify_number Json.parse_number 0 healthy "k"
      (Ok 7) noOptions CacheSamples.corrupted in
  r = Ok 7 ∧ EvRedisDel "k" ∈ trace s' ∧ EvFetch "k" ∈ trace s' ∧
  Logger.logWarn "Redis cache value parse failed, invalidating"
    [("key", JStr "k")] ∈ log s' ∧
  (redis_del_fails healthy = false →
   ∀ p t', redis s' !! "k" = Some (p, t') →
           ∃ fresh, Ok 7 = Ok fresh ∧ Json.stringify_number fresh = Ok p).
Proof.
  apply (proj1 (proj2 (tier_failures_stay_inside as_stored
                         Json.stringify_number Json.parse_number 0 healthy
                         "k" noOptions CacheSamples.corrupted))
           (Ok 7) "{oops" 3600000).
  - vm_compute. reflexivity.
  - vm_compute. reflexivity.
  - vm_compute. reflexivity.
  - vm_compute. reflexivity.
  - vm_compute. reflexivity.
  - vm_compute. reflexivity.
  - discriminate.
  - vm_compute. reflexivity.
Defined.

(** C6, as stated, fails: with the distributed tier reported unavailable, a
    [get] that misses falls through to the fetch function, and a [set]
    skips the distributed write, without any warning in the log. *)
Lemma unavailable_tier_logs_nothing :
  (get as_stored Json.stringify_number Json.parse_number 0 redis_down "k"
     (Ok 7) noOptions empty_state).1 = Ok 7 ∧
  ¬ warning_logged
      (get as_stored Json.stringify_number Json.parse_number 0 redis_down
         "k" (Ok 7) noOptions empty_state).2 ∧
  ¬ warning_logged
      (set Json.stringify_number 0 redis_down "k" 7 noOptions empty_state).2.
Proof.
  split; [vm_compute; reflexivity|].
  split; intros (c & Hc & _); vm_compute in Hc; apply elem_of_nil in Hc; exact Hc.
Qed.



End CacheRuns.

(** ** Rate limiter *)

Section Limiter.
Import RateLimit.

Section AnyCache.
Context {W : Type} `{CacheService W}.

(** The verdict of a check both cache calls of which return. *)
Lemma checkRateLimit_fields now key config (w w1 w2 : W) cached :
  cache_get key (Ok {| count := 0; resetAt := now + windowSeconds config * 1000 |})
            (window_options config) w = (Ok cached, w1) →
  cache_set key (written_record now config cached) (window_options config) w1
  = (Ok tt, w2) →
  checkRateLimit now key config w
  = (if resetAt cached <=? now
     then {| allowed := true;
             remaining := maxRequests config - 1;
             resetsAt := now + windowSeconds config * 1000 |}
     else verdict_for config (resetAt cached) (count cached + 1),
     [], w2).
Proof.
  intros Hg Hs. unfold checkRateLimit. rewrite Hg.
  unfold written_record in Hs.
  destruct (resetAt cached <=? now); rewrite Hs; reflexivity.
Qed.

(** With a limit of at least one request, the verdict follows the counter
    written back, in the branch that resets the window as in the other. *)
Lemma checkRateLimit_follows_counter now key config (w w1 w2 : W) cached :
  1 ≤ maxRequests config →
  cache_get key (Ok {| count := 0; resetAt := now + windowSeconds config * 1000 |})
            (window_options config) w = (Ok cached, w1) →
  cache_set key (written_record now config cached) (window_options config) w1
  = (Ok tt, w2) →
  checkRateLimit now key config w
  = (verdict_for config (resetAt (written_record now config cached))
                 (count (written_record now config cached)), [], w2).
Proof.
  intros Hmax Hg Hs.
  rewrite (checkRateLimit_fields now key config w w1 w2 cached Hg Hs).
  unfold written_record, verdict_for.
  destruct (resetAt cached <=? now); [|reflexivity]. simpl.
  replace (1 <=? maxRequests config) with true by (symmetry; apply Z.leb_le; lia).
  rewrite Z.max_r by lia. reflexivity.
Qed.

(** C8. Whenever one of the two cache calls of a check throws, the check
    still returns a verdict, and the verdict lets the request through:
    [allowed = true], with the full limit remaining and a window starting
    now; the error is logged at error level, and is all the check logs. *)
Theorem limiter_fails_open :
  ∀ (now : Z) (key : string) (config : RateLimitConfig) (w : W) (e : string),
    cache_raises now key config w e →
    let '(verdict, logs, _) := checkRateLimit now key config w in
    allowed verdict = true ∧
    remaining verdict = maxRequests config ∧
    resetsAt verdict = now + windowSeconds config * 1000 ∧
    logs = [Logger.logError "Rate limit check failed" (Some e) []].
Proof.
  intros now key config w e. unfold cache_raises, checkRateLimit, written_record.
  destruct (cache_get _ _ _ w) as [[cached|e'] w1]; simpl.
  - destruct (resetAt cached <=? now);
      destruct (cache_set _ _ _ w1) as [[u|e''] w2]; simpl;
      try discriminate; intros [= ->]; auto.
  - intros ->. auto.
Qed.
End AnyCache.

Lemma limiter_fails_open_witness :
  @cache_raises _ CacheSamples.read_only_cache 1000 "ratelimit:auth:10.0.0.7"
    authRateLimit tt "READONLY" ∧
  let '(verdict, logs, _) :=
    @checkRateLimit _ CacheSamples.read_only_cache 1000 "ratelimit:auth:10.0.0.7"
      authRateLimit tt in
  allowed verdict = true ∧
  remaining verdict = 5 ∧
  resetsAt verdict = 901000 ∧
  logs = [Logger.logError "Rate limit check failed" (Some "READONLY") []].
Proof.
  assert (Hr : @cache_raises _ CacheSamples.read_only_cache 1000
                 "ratelimit:auth:10.0.0.7" authRateLimit tt "READONLY")
    by reflexivity.
  split; [exact Hr|].
  exact (@limiter_fails_open _ CacheSamples.read_only_cache 1000
           "ratelimit:auth:10.0.0.7" authRateLimit tt "READONLY" Hr).
Defined.

End Limiter.

Section TieredLimiter.
Import RateLimit.
Variable stringify : RateLimitData → Res string.
Variable parse : string → option RateLimitData.

Lemma window_ttl config :
  0 < windowSeconds config →
  Cache.ttl_or (Cache.memoryTTL (Cache.merge (window_options config))) 300
  = windowSeconds config.
Proof.
  intros Hw. simpl. destruct (windowSeconds config =? 0) eqn:E; [|reflexivity].
  apply Z.eqb_eq in E. lia.
Qed.

(** A request inside the window of the record the in-process tier holds. *)
Lemma check_in_window key config call (s : Cache.State RateLimitData) d t :
  0 < windowSeconds config →
  Cache.mem s !! key = Some (d, t) → resetAt d ≤ t →
  in_window config (resetAt d) call →
  ∃ s', check stringify parse key config call s
        = (verdict_for config (resetAt d) (count d + 1), [], s') ∧
        Cache.mem s' !! key
        = Some ({| count := count d + 1; resetAt := resetAt d |},
                call.1.1 + windowSeconds config * 1000).
Proof.
  intros Hw Hm Ht. destruct call as [[now fget] fset]. intros (Hnow & Hfg & Hfs).
  unfold check.
  assert (Hg : Cache.get Cache.as_stored stringify parse now fget key
                 (Ok {| count := 0; resetAt := now + windowSeconds config * 1000 |})
                 (window_options config) s = (Ok d, s)).
  { apply get_of_memory_hit. eapply get_memory_hit; eauto.
    unfold Cache.mem_live. cbn [snd]. apply orb_true_iff. right.
    apply Z.leb_le. lia. }
  assert (Hwr : written_record now config d
                = {| count := count d + 1; resetAt := resetAt d |}).
  { unfold written_record.
    replace (resetAt d <=? now) with false by (symmetry; apply Z.leb_gt; lia).
    reflexivity. }
  destruct (Cache.set stringify now fset key
              {| count := count d + 1; resetAt := resetAt d |}
              (window_options config) s) as [[] s'] eqn:Es.
  exists s'. split.
  - rewrite (@checkRateLimit_fields _ (tiered stringify parse now fget fset)
               now key config s s s' d).
    + replace (resetAt d <=? now) with false by (symmetry; apply Z.leb_gt; lia).
      reflexivity.
    + exact Hg.
    + rewrite Hwr. simpl. rewrite Es. reflexivity.
  - change s' with (tt, s').2. rewrite <- Es.
    rewrite set_mem by (auto; reflexivity).
    rewrite window_ttl by exact Hw. apply lookup_insert_eq.
Qed.

(** The first request for a key neither tier knows. *)
Lemma check_fresh_key key config now fget fset (s : Cache.State RateLimitData) :
  0 < windowSeconds config →
  Cache.mem s !! key = None → Cache.redis s !! key = None →
  Cache.mem_set_throws fset = false →
  ∃ s', check stringify parse key config (now, fget, fset) s
        = (verdict_for config (now + windowSeconds config * 1000) 1, [], s') ∧
        Cache.mem s' !! key
        = Some ({| count := 1; resetAt := now + windowSeconds config * 1000 |},
                now + windowSeconds config * 1000).
Proof.
  intros Hw Hm Hr Hfs. unfold check.
  set (fresh := {| count := 0; resetAt := now + windowSeconds config * 1000 |}).
  assert (Hmiss : Cache.get_memory Cache.as_stored now fget key
                    (Cache.merge (window_options config)) s = (None, s)).
  { apply get_memory_absent, Hm. }
  destruct (get_redis_absent parse now fget key
              (Cache.merge (window_options config)) s Hr) as (s1 & Hs1 & _).
  pose proof (get_of_miss Cache.as_stored stringify parse now fget key (Ok fresh)
                (window_options config) s s1 Hmiss Hs1) as Hg.
  cbv beta iota in Hg.
  set (s2 := (Cache.store_memory now fget key fresh _ _ _).2) in Hg.
  assert (Hwr : written_record now config fresh
                = {| count := 1; resetAt := now + windowSeconds config * 1000 |}).
  { unfold written_record, fresh. simpl.
    replace (now + windowSeconds config * 1000 <=? now) with false
      by (symmetry; apply Z.leb_gt; lia).
    f_equal. }
  destruct (Cache.set stringify now fset key
              {| count := 1; resetAt := now + windowSeconds config * 1000 |}
              (window_options config) s2) as [[] s'] eqn:Es.
  exists s'. split.
  - rewrite (@checkRateLimit_fields _ (tiered stringify parse now fget fset)
               now key config s s2 s' fresh).
    + simpl.
      replace (now + windowSeconds config * 1000 <=? now) with false
        by (symmetry; apply Z.leb_gt; lia).
      reflexivity.
    + exact Hg.
    + rewrite Hwr. simpl. rewrite Es. reflexivity.
  - change s' with (tt, s').2. rewrite <- Es.
    rewrite set_mem by (auto; reflexivity).
    rewrite window_ttl by exact Hw. apply lookup_insert_eq.
Qed.

(** Successive requests inside the window of the record held. *)
Lemma checks_in_window key config :
  0 < windowSeconds config →
  ∀ calls (s : Cache.State RateLimitData) d t,
    Cache.mem s !! key = Some (d, t) → resetAt d ≤ t →
    Forall (in_window config (resetAt d)) calls →
    (checks stringify parse key config calls s).1
    = verdicts_from config (resetAt d) (count d) (length calls).
Proof.
  intros Hw calls. induction calls as [|call rest IH]; intros s d t Hm Ht Hall.
  - reflexivity.
  - apply Forall_cons in Hall as [Hcall Hrest].
    destruct (check_in_window key config call s d t Hw Hm Ht Hcall)
      as (s' & Hc & Hm').
    cbn [checks length verdicts_from]. rewrite Hc.
    specialize (IH s' {| count := count d + 1; resetAt := resetAt d |}
                  (call.1.1 + windowSeconds config * 1000) Hm').
    cbn [count resetAt] in IH.
    destruct (checks stringify parse key config rest s') as [vs s2].
    cbn [fst] in *. f_equal. apply IH; [|exact Hrest].
    destruct call as [[now fget] fset]. destruct Hcall as (Hnow & _). simpl. lia.
Qed.

(** The verdicts of a window, from its first request on. *)
Theorem window_counts key config t0 fget fset rest (s : Cache.State RateLimitData) :
  0 < windowSeconds config →
  Cache.mem s !! key = None → Cache.redis s !! key = None →
  Cache.mem_set_throws fset = false →
  Forall (in_window config (t0 + windowSeconds config * 1000)) rest →
  (checks stringify parse key config ((t0, fget, fset) :: rest) s).1
  = verdicts_from config (t0 + windowSeconds config * 1000) 0 (S (length rest)).
Proof.
  intros Hw Hm Hr Hfs Hall.
  destruct (check_fresh_key key config t0 fget fset s Hw Hm Hr Hfs)
    as (s' & Hc & Hm').
  cbn [checks verdicts_from]. rewrite Hc.
  pose proof (checks_in_window key config Hw rest s'
                {| count := 1; resetAt := t0 + windowSeconds config * 1000 |}
                (t0 + windowSeconds config * 1000) Hm') as IH.
  cbn [count resetAt] in IH.
  destruct (checks stringify parse key config rest s') as [vs s2].
  cbn [fst] in *. f_equal. apply IH; [lia|exact Hall].
Qed.

Lemma verdicts_from_lookup config r c n (i : nat) :
  (i < n)%nat →
  verdicts_from config r c n !! i = Some (verdict_for config r (c + 1 + Z.of_nat i)).
Proof.
  revert c i. induction n as [|n IH]; intros c i Hi; [lia|].
  destruct i as [|i]; simpl.
  - do 2 f_equal. lia.
  - rewrite IH by lia. do 2 f_equal. lia.
Qed.

(** When the counter was at zero, the first [maxRequests] requests of a
    window are allowed and the next one is not, with nothing remaining. *)
Corollary limit_reached config r (n : nat) :
  Z.of_nat n = maxRequests config →
  (∀ i v, (i < n)%nat → verdicts_from config r 0 (S n) !! i = Some v →
          allowed v = true) ∧
  ∃ v, verdicts_from config r 0 (S n) !! n = Some v ∧
       allowed v = false ∧ remaining v = 0.
Proof.
  intros Hn. split.
  - intros i v Hi. rewrite verdicts_from_lookup by lia. intros [= <-].
    simpl. apply Z.leb_le. lia.
  - eexists. split; [apply verdicts_from_lookup; lia|]. simpl. split.
    + apply Z.leb_gt. lia.
    + lia.
Qed.
End TieredLimiter.

Section LimiterRuns.
Import Cache RateLimit.

(** C2. With a limit of zero requests, the request that arrives when the
    window of the stored record has ended is answered [allowed = true] with
    [remaining = -1], whereas the counter it writes is 1, for which the
    specification gives [allowed = false] and [remaining = 0]; the first
    request ever, which goes through the incrementing branch, is refused. *)
Theorem reset_ignores_zero_limit :
  (checks Json.stringify_record Json.parse_record "ratelimit:blocked:10.0.0.7"
     CacheSamples.blocked
     [(0, healthy, healthy); (60000, healthy, healthy)] empty_state).1
  = [ {| allowed := false; remaining := 0; resetsAt := 60000 |};
      {| allowed := true; remaining := -1; resetsAt := 120000 |} ]
  ∧ verdict_for CacheSamples.blocked 120000 1
    = {| allowed := false; remaining := 0; resetsAt := 120000 |}.
Proof. split; vm_compute; reflexivity. Qed.

Example auth_window_run :
  (checks Json.stringify_record Json.parse_record "ratelimit:auth:10.0.0.7"
     authRateLimit
     [(0, healthy, healthy); (1, healthy, redis_down); (2, redis_down, healthy);
      (3, healthy, healthy); (4, healthy, healthy); (899999, healthy, healthy);
      (900000, healthy, healthy)] empty_state).1
  = [ {| allowed := true; remaining := 4; resetsAt := 900000 |};
      {| allowed := true; remaining := 3; resetsAt := 900000 |};
      {| allowed := true; remaining := 2; resetsAt := 900000 |};
      {| allowed := true; remaining := 1; resetsAt := 900000 |};
      {| allowed := true; remaining := 0; resetsAt := 900000 |};
      {| allowed := false; remaining := 0; resetsAt := 900000 |};
      {| allowed := true; remaining := 4; resetsAt := 1800000 |} ].
Proof. vm_compute. reflexivity. Qed.

Example record_round_trip :
  Json.stringify_record {| count := 3; resetAt := 900000 |}
  = Ok (Json.count_field +:+ "3" +:+ Json.resetAt_field +:+ "900000}")
  ∧ Json.parse_record (Json.count_field +:+ "3" +:+ Json.resetAt_field +:+ "900000}")
    = Some {| count := 3; resetAt := 900000 |}.
Proof. split; vm_compute; reflexivity. Qed.

End LimiterRuns.

(** ** CSRF guard *)

Section CsrfGuard.
Import Csrf.
Variable sessionUser : Request → option string.
Variable verifyToken : HeaderVal → string → bool.

(** Under the default configuration the guard applies to the four
    state-changing methods, on every path. *)
Lemma guarded_by_default (req : Request) :
  guarded defaultConfig req
  = bool_decide (default "" (req_method req) ∈ ["POST"; "PUT"; "DELETE"; "PATCH"]).
Proof. unfold guarded. simpl. apply andb_true_r. Qed.

(** A configuration that leaves the methods at their default guards the
    four state-changing methods on every path that contains none of its
    exempt paths. *)
Lemma guarded_default_methods (config : CSRFConfig) (req : Request) :
  methods config = None →
  guarded config req
  = bool_decide (default "" (req_method req) ∈ ["POST"; "PUT"; "DELETE"; "PATCH"])
    && negb (existsb (λ skipPath, includes (default "" (req_url req)) skipPath)
                     (default [] (skipPaths config))).
Proof. intros Hm. unfold guarded. rewrite Hm. reflexivity. Qed.

(** [publicCSRF] protects no method at all. *)
Lemma publicCSRF_guards_nothing (req : Request) : guarded publicCSRF req = false.
Proof. reflexivity. Qed.

Lemma is_prefix_append (p s : string) : is_prefix p (p +:+ s) = true.
Proof.
  induction p as [|c p IH]; simpl; [reflexivity|].
  rewrite Ascii.eqb_refl. exact IH.
Qed.

Lemma includes_infix (pre sub post : string) :
  includes (pre +:+ sub +:+ post) sub = true.
Proof.
  induction pre as [|c pre IH].
  - simpl. destruct (sub +:+ post) eqn:E; simpl.
    + destruct sub; [reflexivity|discriminate].
    + rewrite <- E, is_prefix_append. reflexivity.
  - simpl. rewrite IH. apply orb_true_r.
Qed.





End CsrfGuard.



Example foreign_token_rejected :
  Csrf.csrfProtection CsrfSamples.session_of_alice CsrfSamples.verify_by_prefix
    Csrf.defaultConfig CsrfSamples.delete_with_foreign_token
  = (Csrf.Rejected (forbidden "Invalid or missing CSRF token"),
     [Logger.logSecurity "CSRF token validation failed"
        [("path", JStr "/api/orders/7"); ("method", JStr "DELETE");
         ("ip", JStr "10.0.0.1"); ("sessionId", JStr "alice")]]).
Proof. vm_compute. reflexivity. Qed.

(** * Properties of the further operations *)

(** ** API version router *)

Section VersionRouterMore.
Import ApiVersioning ApiDeprecation.

Lemma resolved_version_is_v1 (req : Request) : getApiVersion req = "v1".
Proof.
  pose proof (getApiVersion_supported req) as Hs.
  unfold isSupportedVersion in Hs. apply bool_decide_eq_true in Hs.
  unfold SUPPORTED_VERSIONS in Hs. apply list_elem_of_singleton in Hs. exact Hs.
Qed.


Example dispatch_lists_versions_as_written :
  versionedHandler [("v2", tt); ("v3", tt)] Samples.bare
  = (Respond
       {| status := 501;
          body := [("error", JStr "Version Not Implemented");
                   ("message", JStr "This endpoint does not support version 'v1'");
                   ("supportedVersions", JArr [JStr "v2"; JStr "v3"])] |},
     [Logger.logWarn "No handler for API version"
        [("version", JStr "v1"); ("path", JStr "/api/products");
         ("availableVersions", JArr [JStr "v2"; JStr "v3"])]]).
Proof. vm_compute. reflexivity. Qed.

(** X2. A deprecation notice registered for v1 marks every request,
    also those that ask for another version; one registered for any other
    version never sets a header nor logs, whatever the request carries. *)
Theorem deprecation_only_for_v1 :
  ∀ (version : string) (deprecatedSince sunsetDate : Z) (message : option string)
    (now : Z) (req : Request),
    (version = "v1" ∧
     ∃ extra,
       (deprecationWarning version deprecatedSince sunsetDate message now req).1
       = ([("X-API-Deprecated", JStr "true");
           ("X-API-Deprecated-Since", JDate deprecatedSince);
           ("X-API-Sunset", JDate sunsetDate);
           ("X-API-Sunset-Days", JNum (ceil_div (sunsetDate - now) MS_PER_DAY))]
          ++ extra)%list) ∨
    (version ≠ "v1" ∧
     deprecationWarning version deprecatedSince sunsetDate message now req
     = ([], [])).
Proof.
  intros version since sunset message now req. unfold deprecationWarning.
  rewrite (resolved_version_is_v1 req).
  destruct (String.eqb "v1" version) eqn:E.
  - apply String.eqb_eq in E. left. split; [auto|]. simpl. eauto.
  - apply String.eqb_neq in E. right. split; [auto|reflexivity].
Qed.

Lemma ceil_div_spec (a b : Z) :
  0 < b → (ceil_div a b - 1) * b < a ≤ ceil_div a b * b.
Proof.
  intros Hb. unfold ceil_div.
  pose proof (Z.div_mod (- a) b ltac:(lia)) as Hd.
  pose proof (Z.mod_pos_bound (- a) b Hb) as Hm.
  nia.
Qed.

(** X3. The number of days a deprecation notice announces is the time left
    until the sunset rounded up to whole days: the sunset is not later than
    that many days from now, and later than one day less. *)
Theorem sunset_days_round_up :
  ∀ (deprecatedSince sunsetDate : Z) (message : option string) (now : Z)
    (req : Request),
    ∃ days,
      (deprecationWarning "v1" deprecatedSince sunsetDate message now req).1 !! 3%nat
      = Some ("X-API-Sunset-Days", JNum days) ∧
      now + (days - 1) * MS_PER_DAY < sunsetDate ≤ now + days * MS_PER_DAY.
Proof.
  intros since sunset message now req. unfold deprecationWarning.
  rewrite (resolved_version_is_v1 req). simpl.
  eexists. split; [reflexivity|].
  pose proof (ceil_div_spec (sunset - now) MS_PER_DAY ltac:(reflexivity)). lia.
Qed.

End VersionRouterMore.

(** ** Logger *)

Section LoggerMore.
Import Logger.

(** X26. A [LOG_LEVEL] that names no level (the names are the four
    upper-case ones) silences the logger altogether, errors included. *)
Theorem unknown_log_level_silences :
  ∀ (name : string) (production : bool) (calls : list LogCall),
    name ≠ "" → level_named name = None →
    printed (currentLevel (Some name) production) calls = [].
Proof.
  intros name production calls Hne Hl. unfold currentLevel.
  destruct (String.eqb name "") eqn:E; [apply String.eqb_eq in E; contradiction|].
  rewrite Hl. unfold printed. induction calls as [|c calls IH]; [reflexivity|].
  rewrite filter_cons. simpl. destruct (decide (false = true)); [discriminate|].
  exact IH.
Qed.

Lemma unknown_log_level_silences_witness :
  "error" ≠ "" ∧ level_named "error" = None ∧
  printed (currentLevel (Some "error") true)
    [logError "Database error" (Some "boom") []] = [].
Proof.
  assert (H1 : "error" ≠ "") by discriminate.
  assert (H2 : level_named "error" = None) by reflexivity.
  split; [exact H1|]. split; [exact H2|].
  exact (unknown_log_level_silences "error" true _ H1 H2).
Defined.

(** X27. Whatever level is configured, a call that is printed stays
    printed when its severity is raised: errors are printed whenever
    anything is. *)
Theorem severity_is_monotone :
  ∀ (current : option LogLevel) (l l' : LogLevel),
    shouldLog current l = true →
    logLevelOrder l' ≤ logLevelOrder l →
    shouldLog current l' = true.
Proof.
  intros [c|] l l' Hs Hle; simpl in *; [|discriminate].
  apply Z.leb_le in Hs. apply Z.leb_le. lia.
Qed.

Lemma severity_is_monotone_witness :
  shouldLog (currentLevel (Some "WARN") true) WARN = true ∧
  logLevelOrder ERROR ≤ logLevelOrder WARN ∧
  shouldLog (currentLevel (Some "WARN") true) ERROR = true.
Proof.
  assert (H1 : shouldLog (currentLevel (Some "WARN") true) WARN = true)
    by reflexivity.
  assert (H2 : logLevelOrder ERROR ≤ logLevelOrder WARN) by (vm_compute; discriminate).
  split; [exact H1|]. split; [exact H2|].
  exact (severity_is_monotone _ WARN ERROR H1 H2).
Defined.

End LoggerMore.

(** ** The connection to the distributed tier *)

Section ConnectionMore.
Import RedisConnection.

(** X18. While the client keeps retrying, the delay grows by 50 ms per
    attempt and never exceeds 500 ms, so the cap of 2000 ms is never
    reached: after the tenth attempt the strategy gives up. *)
Theorem retry_delay_bounds :
  ∀ (times delay : Z),
    (retryStrategy times).1 = Some delay →
    times ≤ 10 ∧ delay = times * 50 ∧ delay ≤ 500.
Proof.
  intros times delay. unfold retryStrategy.
  destruct (10 <? times) eqn:E; [discriminate|].
  apply Z.ltb_ge in E. simpl. intros [= <-].
  rewrite Z.min_l by lia. lia.
Qed.

Lemma retry_delay_bounds_witness : 10 ≤ 10 ∧ 500 = 10 * 50 ∧ 500 ≤ 500.
Proof. apply (retry_delay_bounds 10 500). reflexivity. Defined.

Lemma connectRedis_attempt now connects c r logs c' :
  connectRedis now connects c = (r, true, logs, c') →
  lastConnectionAttempt c + RECONNECTION_COOLDOWN ≤ now ∧
  lastConnectionAttempt c' = now.
Proof.
  unfold connectRedis.
  destruct (isRedisConnecting c); [intros [= ]|].
  destruct (now - lastConnectionAttempt c <? RECONNECTION_COOLDOWN) eqn:E;
    [intros [= ]|].
  apply Z.ltb_ge in E.
  destruct connects; intros [= <- <- <-]; simpl; split; lia.
Qed.

Lemma connectRedis_no_attempt now connects c r logs c' :
  connectRedis now connects c = (r, false, logs, c') → c' = c.
Proof.
  unfold connectRedis.
  destruct (isRedisConnecting c); [intros [= ]; congruence|].
  destruct (now - lastConnectionAttempt c <? RECONNECTION_COOLDOWN);
    [intros [= ]; congruence|].
  destruct connects; intros [= ].
Qed.

Lemma on_keeps_last ev st c :
  lastConnectionAttempt (on ev st c) = lastConnectionAttempt c.
Proof. destruct ev; reflexivity. Qed.

(** X19. Whatever events arrive and whenever [connectRedis] is called, two
    successive calls of [redis.connect()] are at least the cooldown of
    5000 ms apart, and the first one that far from the last attempt
    recorded. *)
Theorem connect_attempts_are_spaced :
  ∀ (steps : list Step) (c : Conn),
    spaced (lastConnectionAttempt c) (run steps c).1.
Proof.
  induction steps as [|step steps IH]; intros c; [exact I|].
  destruct step as [ev st|now connects]; simpl.
  - rewrite <- (on_keeps_last ev st c). apply IH.
  - destruct (connectRedis now connects c) as [[[r attempted] logs] c'] eqn:E.
    specialize (IH c'). destruct (run steps c') as [times c''].
    destruct attempted; simpl in *.
    + destruct (connectRedis_attempt _ _ _ _ _ _ E) as [Hgap Hlast].
      rewrite Hlast in IH. auto.
    + rewrite (connectRedis_no_attempt _ _ _ _ _ _ E) in IH. exact IH.
Qed.

End ConnectionMore.

(** ** Soft-delete interceptor *)

Section InterceptorMore.
Import SoftDelete SoftDeleteHelpers.

Lemma force_live_twice (p : Params) : force_live (force_live p) = force_live p.
Proof.
  unfold force_live. destruct p as [m a [w d o]]. simpl.
  rewrite insert_insert_eq. reflexivity.
Qed.

Lemma default_live_twice (p : Params) : default_live (default_live p) = default_live p.
Proof.
  unfold default_live. destruct p as [m a [[w|] d o]]; simpl.
  - destruct (is_undefined (js_get w "deletedAt")) eqn:E; simpl.
    + unfold js_get. rewrite lookup_insert_eq. reflexivity.
    + rewrite E. reflexivity.
  - unfold js_get. rewrite lookup_singleton_eq. reflexivity.
Qed.

Lemma default_live_model (q : Params) : model (default_live q) = model q.
Proof.
  unfold default_live.
  destruct (where_ (args q)); [destruct (is_undefined _)|]; reflexivity.
Qed.

Lemma readMiddleware_undeclared (p : Params) :
  supportsSoftDelete (default "" (model p)) = false → readMiddleware p = p.
Proof. intros Hm. unfold readMiddleware. rewrite Hm. reflexivity. Qed.

(** What the second middleware does, by the operation. *)
Lemma readMiddleware_cases (p : Params) :
  supportsSoftDelete (default "" (model p)) = true →
  readMiddleware p
  = match action p with
    | FindUnique | FindFirst => force_live p
    | FindMany | Count | Aggregate => default_live p
    | _ => p
    end.
Proof.
  intros Hm. unfold readMiddleware. rewrite Hm. cbn [negb].
  destruct p as [m a ar]. cbn [action].
  destruct a;
    repeat (rewrite ?default_live_action; cbn [action decide decide_rel]; simpl);
    reflexivity.
Qed.

Lemma readMiddleware_model (p : Params) : model (readMiddleware p) = model p.
Proof.
  destruct (supportsSoftDelete (default "" (model p))) eqn:Hm.
  - rewrite (readMiddleware_cases p Hm).
    destruct (action p); try reflexivity; apply default_live_model.
  - rewrite (readMiddleware_undeclared p Hm). reflexivity.
Qed.

Lemma readMiddleware_action (p : Params) : action (readMiddleware p) = action p.
Proof.
  destruct (supportsSoftDelete (default "" (model p))) eqn:Hm.
  - rewrite (readMiddleware_cases p Hm).
    destruct (action p) eqn:E; rewrite ?default_live_action; exact E.
  - rewrite (readMiddleware_undeclared p Hm). reflexivity.
Qed.

Lemma readMiddleware_twice (p : Params) :
  readMiddleware (readMiddleware p) = readMiddleware p.
Proof.
  destruct (supportsSoftDelete (default "" (model p))) eqn:Hm.
  - rewrite (readMiddleware_cases (readMiddleware p))
      by (rewrite readMiddleware_model; exact Hm).
    rewrite readMiddleware_action.
    rewrite (readMiddleware_cases p Hm).
    destruct (action p); try reflexivity;
      first [apply force_live_twice | apply default_live_twice].
  - rewrite !(readMiddleware_undeclared p Hm). reflexivity.
Qed.

(** The first middleware leaves whatever is no delete alone. *)
Lemma deleteMiddleware_other (now : Z) (p : Params) :
  action p ≠ Delete → action p ≠ DeleteMany →
  deleteMiddleware now p = (p, []).
Proof.
  intros H1 H2. unfold deleteMiddleware.
  destruct (supportsSoftDelete _); [|reflexivity]. cbn [negb].
  destruct (decide (action p = Delete)); [contradiction|].
  destruct (decide (action p = DeleteMany)); [contradiction|]. reflexivity.
Qed.

Lemma deleteMiddleware_never_delete (now : Z) (p : Params) :
  supportsSoftDelete (default "" (model p)) = true →
  action (deleteMiddleware now p).1 ≠ Delete ∧
  action (deleteMiddleware now p).1 ≠ DeleteMany.
Proof.
  intros Hm. unfold deleteMiddleware. rewrite Hm. cbn [negb].
  destruct p as [m a ar]. destruct a; simpl; split; discriminate.
Qed.

(** X20. The interceptor touches nothing but the seven operations it names
    on the declared models: operations on any other model, and on a
    declared model every other operation ([findUniqueOrThrow],
    [findFirstOrThrow] and [groupBy] among them), reach the engine as they
    were issued, and nothing is logged. *)
Theorem intercept_leaves_rest_alone :
  ∀ (now : Z) (p : Params),
    supportsSoftDelete (default "" (model p)) = false ∨
    action p ∉ [Delete; DeleteMany; FindUnique; FindFirst; FindMany; Count; Aggregate] →
    intercept now p = (p, []).
Proof.
  intros now p [Hm|Ha].
  - unfold intercept, deleteMiddleware. rewrite Hm. cbn [negb].
    rewrite (readMiddleware_undeclared p Hm). reflexivity.
  - unfold intercept.
    rewrite deleteMiddleware_other
      by (intros E; apply Ha; rewrite E; repeat constructor).
    destruct (supportsSoftDelete (default "" (model p))) eqn:Hm.
    + rewrite (readMiddleware_cases p Hm).
      destruct (action p); try reflexivity; exfalso; apply Ha; repeat constructor.
    + rewrite (readMiddleware_undeclared p Hm). reflexivity.
Qed.

Lemma intercept_leaves_rest_alone_witness :
  (supportsSoftDelete (default "" (Some "User")) = false ∨
   FindFirstOrThrow ∉ [Delete; DeleteMany; FindUnique; FindFirst; FindMany;
                       Count; Aggregate]) ∧
  intercept 0 {| model := Some "User"; action := FindFirstOrThrow;
                 args := args Samples.delete_user |}
  = ({| model := Some "User"; action := FindFirstOrThrow;
        args := args Samples.delete_user |}, []).
Proof.
  assert (H : supportsSoftDelete (default "" (Some "User")) = false ∨
              FindFirstOrThrow ∉ [Delete; DeleteMany; FindUnique; FindFirst;
                                  FindMany; Count; Aggregate]).
  { right. intros Hin. repeat (apply elem_of_cons in Hin as [Hin|Hin]; [discriminate|]).
    apply elem_of_nil in Hin. exact Hin. }
  split; [exact H|].
  exact (intercept_leaves_rest_alone 0
           {| model := Some "User"; action := FindFirstOrThrow;
              args := args Samples.delete_user |} H).
Defined.

(** X21. For the declared models the interceptor is idempotent: a query
    that has passed it passes it a second time unchanged and without a log
    call, so that running the middlewares twice over a query changes
    nothing. *)
Theorem intercept_is_idempotent :
  ∀ (now now' : Z) (p : Params),
    supportsSoftDelete (default "" (model p)) = true →
    intercept now' (intercept now p).1 = ((intercept now p).1, []).
Proof.
  intros now now' p Hm. unfold intercept.
  destruct (deleteMiddleware_never_delete now p Hm) as [H1 H2].
  destruct (deleteMiddleware now p) as [q logs]. cbn [fst] in *.
  rewrite deleteMiddleware_other by (rewrite readMiddleware_action; assumption).
  rewrite readMiddleware_twice. reflexivity.
Qed.

Lemma intercept_is_idempotent_witness :
  supportsSoftDelete (default "" (model Samples.list_trashed_users)) = true ∧
  intercept 5 (intercept 0 Samples.list_trashed_users).1
  = ((intercept 0 Samples.list_trashed_users).1, []).
Proof.
  assert (H : supportsSoftDelete (default "" (model Samples.list_trashed_users))
              = true) by (vm_compute; reflexivity).
  split; [exact H|].
  exact (intercept_is_idempotent 0 5 Samples.list_trashed_users H).
Defined.

Lemma default_live_trashed (p : Params) (w : gmap string JsVal) :
  where_ (args p) = Some (trashed w) → default_live p = p.
Proof.
  intros Hw. unfold default_live. rewrite Hw. unfold js_get, trashed.
  rewrite lookup_insert_eq. reflexivity.
Qed.

(** X22. The queries by which [findDeleted] and [countDeleted] look into
    the trash carry the clause [deletedAt: { not: null }], whatever the
    caller's criteria say about [deletedAt], and pass the interceptor of a
    declared model unchanged: the default filter is not put over them. *)
Theorem trash_queries_pass_interceptor :
  ∀ (now : Z) (delegates : string → bool) (name : string)
    (options : option FindOptions) (w : option (gmap string JsVal)) (q : Params),
    supportsSoftDelete name = true →
    findDeleted delegates name options = Ok q ∨ countDeleted delegates name w = Ok q →
    intercept now q = (q, []) ∧
    where_ (args q) ≫= (.!! "deletedAt") = Some (JObj [("not", JNull)]).
Proof.
  intros now delegates name options w q Hm Hq.
  assert (H : model q = Some name ∧ (action q = FindMany ∨ action q = Count) ∧
              ∃ w', where_ (args q) = Some (trashed w')).
  { destruct Hq as [Hq|Hq]; [unfold findDeleted in Hq|unfold countDeleted in Hq];
      destruct (negb (delegates (toLowerCase name))); try discriminate;
      injection Hq as <-; simpl; eauto. }
  destruct H as (Hmodel & Hact & w' & Hw). split.
  - unfold intercept.
    rewrite deleteMiddleware_other by (destruct Hact as [-> | ->]; discriminate).
    rewrite readMiddleware_cases by (rewrite Hmodel; exact Hm).
    rewrite (default_live_trashed q w' Hw).
    destruct Hact as [-> | ->]; reflexivity.
  - rewrite Hw. simpl. unfold trashed. apply lookup_insert_eq.
Qed.

Lemma trash_queries_pass_interceptor_witness :
  supportsSoftDelete "User" = true ∧
  (∃ q, findDeleted (λ _, true) "User"
          (Some {| fo_where := Some {[ "deletedAt" := JNull ]};
                   fo_orderBy := None; fo_take := Some 10; fo_skip := None |})
        = Ok q ∧ intercept 0 q = (q, []) ∧
        where_ (args q) ≫= (.!! "deletedAt") = Some (JObj [("not", JNull)])).
Proof.
  assert (H : supportsSoftDelete "User" = true) by (vm_compute; reflexivity).
  split; [exact H|].
  eexists. split; [reflexivity|].
  exact (trash_queries_pass_interceptor 0 (λ _, true) "User" _ None _ H
           (or_introl eq_refl)).
Defined.

(** The query [restore] sends passes the interceptor unchanged. *)
Lemma restore_query_passes (now : Z) (name : string) (w : gmap string JsVal) :
  intercept now (restore_query name w) = (restore_query name w, []).
Proof.
  unfold intercept. rewrite deleteMiddleware_other by discriminate.
  destruct (supportsSoftDelete (default "" (model (restore_query name w)))) eqn:Hm.
  - rewrite (readMiddleware_cases _ Hm). reflexivity.
  - rewrite (readMiddleware_undeclared _ Hm). reflexivity.
Qed.

Lemma restore_sends delegates send (name : string) (w : gmap string JsVal) :
  delegates (toLowerCase name) = true →
  (restore delegates send name w).2 = [restore_query name w].
Proof.
  intros Hd. unfold restore. rewrite Hd. simpl.
  destruct (send _); reflexivity.
Qed.


(** The payload of a soft delete or of a restore, laid over a row. *)
Lemma stamp_row (v : JsVal) (row : gmap string JsVal) :
  ({[ "deletedAt" := v ]} : gmap string JsVal) ∪ row = <[ "deletedAt" := v ]> row.
Proof. symmetry. apply insert_union_singleton_l. Qed.

(** X23. Soft-deleting and restoring by the same criteria is a round trip
    on a table of live rows: when the engine lets the restore's criteria
    select the rows the delete has just stamped, the table is afterwards
    what it was before. *)
Theorem restore_undoes_soft_delete :
  ∀ (selects : option (gmap string JsVal) → gmap string JsVal → bool)
    (delegates : string → bool) (send : Params → Res unit)
    (now now' : Z) (name : string) (w : gmap string JsVal)
    (table : list (gmap string JsVal)),
    supportsSoftDelete name = true →
    delegates (toLowerCase name) = true →
    Forall (λ row, row !! "deletedAt" = Some JNull) table →
    Forall (λ row, selects (Some w) row = true →
                   selects (Some (trashed w)) (<[ "deletedAt" := JDate now ]> row)
                   = true) table →
    let deleted :=
      run_query selects
        (intercept now {| model := Some name; action := DeleteMany;
                          args := {| where_ := Some w; data := None; other := ∅ |} |}).1
        table in
    foldl (λ t q, run_query selects (intercept now' q).1 t) deleted
          (restore delegates send name w).2
    = table.
Proof.
  intros selects delegates send now now' name w table Hm Hd Hlive Hsel deleted.
  rewrite (restore_sends delegates send name w Hd). simpl.
  rewrite restore_query_passes. cbn [fst]. subst deleted.
  unfold intercept.
  rewrite (surjective_pairing (deleteMiddleware now _)).
  rewrite deleteMiddleware_rewrites by (simpl; auto).
  cbn [fst]. rewrite readMiddleware_update by (simpl; auto).
  unfold run_query. cbn -[union singletonM insert]. rewrite <- list_fmap_compose.
  induction table as [|row table IH]; [reflexivity|].
  apply Forall_cons in Hlive as [Hrow Hlive].
  apply Forall_cons in Hsel as [Hs Hsel].
  rewrite fmap_cons, IH by assumption. f_equal. cbn -[union singletonM insert].
  destruct (selects (Some w) row) eqn:E.
  - rewrite !stamp_row. rewrite (Hs eq_refl), insert_insert_eq.
    apply insert_id, Hrow.
  - destruct (selects (Some (trashed w)) row); [|reflexivity].
    rewrite stamp_row. apply insert_id, Hrow.
Qed.

Lemma restore_undoes_soft_delete_witness :
  supportsSoftDelete "User" = true ∧
  foldl (λ t q, run_query Samples.selects_where (intercept 2000 q).1 t)
    (run_query Samples.selects_where
       (intercept 1000 {| model := Some "User"; action := DeleteMany;
                          args := {| where_ := Some {[ "id" := JStr "u1" ]};
                                     data := None; other := ∅ |} |}).1
       Samples.users)
    (restore (λ _, true) (λ _, Ok tt) "User" {[ "id" := JStr "u1" ]}).2
  = Samples.users.
Proof.
  assert (H : supportsSoftDelete "User" = true) by (vm_compute; reflexivity).
  split; [exact H|].
  apply (restore_undoes_soft_delete Samples.selects_where (λ _, true) (λ _, Ok tt)
           1000 2000 "User" {[ "id" := JStr "u1" ]} Samples.users H eq_refl).
  - repeat (apply Forall_cons; split; [reflexivity|]). apply Forall_nil. exact I.
  - repeat (apply Forall_cons; split;
            [first [ intros _; vm_compute; reflexivity
                   | intros Hx; vm_compute in Hx; discriminate ]|]).
    apply Forall_nil. exact I.
Defined.

(** X24. A row that an intercepted delete has hit reports itself deleted:
    [isDeleted] holds of it and [getDeletionInfo] gives the time of the
    delete and the whole days elapsed since, rounded down. *)
Theorem soft_deleted_rows_report_deleted :
  ∀ (selects : option (gmap string JsVal) → gmap string JsVal → bool)
    (time_of : JsVal → Z) (now now' : Z) (p : Params)
    (table : list (gmap string JsVal)) (i : nat) (row : gmap string JsVal),
    supportsSoftDelete (default "" (model p)) = true →
    action p = Delete ∨ action p = DeleteMany →
    table !! i = Some row → selects (where_ (args p)) row = true →
    time_of (JDate now) = now →
    ∃ row', run_query selects (intercept now p).1 table !! i = Some row' ∧
            isDeleted (Some row') = true ∧
            getDeletionInfo time_of now' (Some row')
            = {| di_isDeleted := true;
                 di_deletedAt := Some now;
                 di_daysSinceDeleted := Some ((now' - now) / 86400000) |}.
Proof.
  intros selects time_of now now' p table i row Hm Ha Hi Hs Ht.
  unfold intercept. rewrite (surjective_pairing (deleteMiddleware now p)).
  rewrite deleteMiddleware_rewrites by assumption. cbn [fst].
  rewrite readMiddleware_update by (simpl; destruct Ha as [-> | ->]; auto).
  assert (Hq : run_query selects (to_update (soft_action (action p)) now p) table
               = (λ r, if selects (where_ (args p)) r
                       then <[ "deletedAt" := JDate now ]> r else r) <$> table).
  { unfold run_query. destruct Ha as [-> | ->]; cbn -[union singletonM insert];
      apply list_fmap_ext; intros j r _; destruct (selects _ r);
      rewrite ?stamp_row; reflexivity. }
  rewrite Hq, list_lookup_fmap, Hi. simpl. rewrite Hs.
  eexists. split; [reflexivity|].
  unfold getDeletionInfo, isDeleted, js_get. simpl.
  rewrite lookup_insert_eq. simpl. rewrite Ht. auto.
Qed.

Lemma soft_deleted_rows_report_deleted_witness :
  ∃ row',
    run_query Samples.selects_where (intercept 1000 Samples.delete_user).1
      Samples.users !! 0%nat = Some row' ∧
    isDeleted (Some row') = true ∧
    getDeletionInfo (λ v, match v with JDate ms => ms | _ => 0 end) 172801000
      (Some row')
    = {| di_isDeleted := true; di_deletedAt := Some 1000;
         di_daysSinceDeleted := Some ((172801000 - 1000) / 86400000) |}.
Proof.
  apply (soft_deleted_rows_report_deleted Samples.selects_where
           (λ v, match v with JDate ms => ms | _ => 0 end) 1000 172801000
           Samples.delete_user Samples.users 0
           {[ "id" := JStr "u1"; "deletedAt" := JNull ]}).
  - vm_compute. reflexivity.
  - left. reflexivity.
  - reflexivity.
  - vm_compute. reflexivity.
  - reflexivity.
Defined.

(** X25. [hardDelete] never hands a statement to the database: for every
    model, filter and context it returns [false], issues nothing and logs
    the failure.  An empty filter is refused on purpose; for every other
    filter the template tag is given one piece of text and as many values
    as the filter has columns, and throws before [$executeRaw] is
    called. *)
Theorem hardDelete_never_reaches_database :
  ∀ (delegates : string → bool) (executeRaw : RawQuery → Res Z) (name : string)
    (criteria context : list (string * JsVal)),
    let '(deleted, logs, issued) :=
      hardDelete delegates executeRaw name criteria context in
    deleted = false ∧ issued = [] ∧
    ∃ reason,
      logs = [Logger.logWarn "Hard delete operation"
                ([("model", JStr name); ("where", JObj criteria)] ++ context)%list;
              Logger.logWarn "Hard delete failed"
                [("model", JStr name); ("where", JObj criteria);
                 ("error", JStr reason)]].
Proof.
  intros delegates executeRaw name criteria context. unfold hardDelete.
  destruct (negb (delegates (toLowerCase name))); [simpl; eauto|].
  destruct criteria as [|[k v] rest]; [simpl; eauto|].
  unfold Prisma_sql. cbn [length fmap list_fmap Nat.eqb]. eauto.
Qed.

End InterceptorMore.

(** ** Rate-limiting middleware *)

Section LimiterMore.
Import Cache RateLimit RateLimitMiddleware.
Variable stringify : RateLimitData → Res string.
Variable parse : string → option RateLimitData.

Lemma before_comma_first (first rest : string) :
  has_char "," first = false → before_comma (first +:+ "," +:+ rest) = first.
Proof.
  induction first as [|c first IH]; intros Hc; [reflexivity|].
  simpl in *. apply orb_false_iff in Hc as [Hc Hrest].
  rewrite Hc. f_equal. apply IH, Hrest.
Qed.

(** X4. Behind proxies the limiter counts a request against the first
    address of the [X-Forwarded-For] header, which is what the sender of
    the request put there; the address of the connection is not looked
    at. *)
Theorem client_address_is_first_forwarded_hop :
  ∀ (req : Request) (first rest : string),
    req_headers req !! "x-forwarded-for" = Some (HStr (first +:+ "," +:+ rest)) →
    has_char "," first = false →
    getClientIp req = first.
Proof.
  intros req first rest Hh Hc. unfold getClientIp. rewrite Hh.
  assert (Ht : truthy (Some (HStr (first +:+ "," +:+ rest))) = true)
    by (destruct first; reflexivity).
  rewrite Ht. apply before_comma_first, Hc.
Qed.

Lemma client_address_is_first_forwarded_hop_witness :
  getClientIp CsrfSamples.post_without_token = "203.0.113.9".
Proof.
  apply (client_address_is_first_forwarded_hop CsrfSamples.post_without_token
           "203.0.113.9" " 10.0.0.1"); reflexivity.
Defined.

Lemma append_inj_l (p a b : string) : p +:+ a = p +:+ b → a = b.
Proof.
  induction p as [|c p IH]; simpl; [auto|]. intros [= H]. exact (IH H).
Qed.

(** X5. Under a policy with an identifier of its own and no key generator,
    two requests share a counter exactly when they have the same client
    address: neither the path nor the method of a request enters the
    key. *)
Theorem policy_counters_are_per_client :
  ∀ (config : RateLimitConfig) (id : string) (req1 req2 : Request),
    identifier config = Some id → id ≠ "" → keyGenerator config = None →
    generateRateLimitKey config req1 = generateRateLimitKey config req2
    ↔ getClientIp req1 = getClientIp req2.
Proof.
  intros config id req1 req2 Hid Hne Hg. unfold generateRateLimitKey.
  rewrite Hid, Hg. unfold nonempty_or at 1 3.
  destruct (String.eqb id "") eqn:E; [apply String.eqb_eq in E; contradiction|].
  split.
  - intros H. do 3 apply append_inj_l in H. exact H.
  - intros ->. reflexivity.
Qed.

Lemma policy_counters_are_per_client_witness :
  generateRateLimitKey authRateLimit Samples.bare
  = generateRateLimitKey authRateLimit Samples.asks_everywhere.
Proof.
  apply (policy_counters_are_per_client authRateLimit "auth" Samples.bare
           Samples.asks_everywhere eq_refl); [discriminate|reflexivity|reflexivity].
Defined.

(** The middleware over the tiered cache, by the verdict of the check. *)
Lemma rateLimit_tiered config now later req fget fset (s : State RateLimitData) :
  exempt config req = false →
  ∀ v logs s',
    check stringify parse (generateRateLimitKey config req) config (now, fget, fset) s
    = (v, logs, s') →
    ∃ headers logs',
      @rateLimit _ (tiered stringify parse now fget fset) config now later req s
      = (if allowed v then Passed
         else Throttled
                {| status := 429;
                   body := [("error", JStr "Too Many Requests");
                            ("message",
                             JStr (nonempty_or (message config)
                                     "Too many requests, please try again later."));
                            ("retryAfter",
                             JNum (ceil_div (resetsAt v - later) 1000))] |},
         headers, logs', s') ∧
      (allowed v = false →
       ("Retry-After", JNum (ceil_div (resetsAt v - later) 1000)) ∈ headers).
Proof.
  intros Hs v logs s' Hc. unfold rateLimit. unfold exempt in Hs. rewrite Hs.
  unfold check in Hc. rewrite Hc.
  destruct (allowed v); simpl; do 2 eexists; (split; [reflexivity|]).
  - discriminate.
  - intros _. member.
Qed.

Lemma requests_follow_checks config req :
  exempt config req = false →
  ∀ calls (s : State RateLimitData),
    passed <$> (requests stringify parse config req calls s).1
    = allowed <$> (checks stringify parse (generateRateLimitKey config req) config
                     calls.*1 s).1.
Proof.
  intros Hs calls. induction calls as [|[[[now fget] fset] later] rest IH];
    intros s; [reflexivity|].
  cbn [requests checks fmap list_fmap fst].
  destruct (check stringify parse (generateRateLimitKey config req) config
              (now, fget, fset) s) as [[v logs] s'] eqn:Hc.
  destruct (rateLimit_tiered config now later req fget fset s Hs v logs s' Hc)
    as (headers & logs' & -> & _).
  specialize (IH s').
  destruct (requests stringify parse config req rest s') as [ps s2].
  destruct (checks stringify parse _ config rest.*1 s') as [vs s3].
  cbn [fst] in *. rewrite !fmap_cons, IH. f_equal. destruct (allowed v); reflexivity.
Qed.

(** X6. A window admits exactly the limit.  Under a policy whose window is
    longer than zero seconds and whose [skip] condition does not hold of
    the request: of the arrivals of the request inside one window,
    starting with the first arrival for a key neither tier knows, the
    middleware hands on those before the limit is reached and answers all
    later ones itself, whatever the distributed tier does meanwhile, as
    long as the in-process tier works. *)
Theorem window_admits_exactly_the_limit :
  ∀ (config : RateLimitConfig) (req : Request) (t0 later0 : Z) (fget fset : Faults)
    (rest : list (Z * Faults * Faults * Z)) (s : State RateLimitData)
    (i : nat) (p : Passage),
    0 < windowSeconds config → exempt config req = false →
    mem s !! generateRateLimitKey config req = None →
    redis s !! generateRateLimitKey config req = None →
    mem_set_throws fset = false →
    Forall (in_window config (t0 + windowSeconds config * 1000)) rest.*1 →
    (requests stringify parse config req ((t0, fget, fset, later0) :: rest) s).1 !! i
    = Some p →
    passed p = true ↔ Z.of_nat i < maxRequests config.
Proof.
  intros config req t0 later0 fget fset rest s i p Hw Hs Hm Hr Hf Hall Hi.
  pose proof (requests_follow_checks config req Hs
                ((t0, fget, fset, later0) :: rest) s) as Heq.
  rewrite fmap_cons in Heq. cbn [fst] in Heq.
  rewrite (window_counts stringify parse _ config t0 fget fset rest.*1 s
             Hw Hm Hr Hf Hall) in Heq.
  assert (Hp : (passed <$> (requests stringify parse config req
                              ((t0, fget, fset, later0) :: rest) s).1) !! i
               = Some (passed p)) by (rewrite list_lookup_fmap, Hi; reflexivity).
  rewrite Heq, list_lookup_fmap in Hp.
  assert (Hl : ∀ n r c, length (verdicts_from config r c n) = n).
  { clear. induction n as [|n IH]; intros r c; simpl; [reflexivity|].
    rewrite IH. reflexivity. }
  assert (Hlen : (i < S (length rest.*1))%nat).
  { destruct (verdicts_from config _ 0 (S (length rest.*1)) !! i) as [v|] eqn:E;
      [|discriminate].
    apply lookup_lt_Some in E. rewrite Hl in E. exact E. }
  rewrite verdicts_from_lookup in Hp by exact Hlen.
  simpl in Hp. injection Hp as Hp. rewrite <- Hp.
  rewrite Z.leb_le. lia.
Qed.





(** X10. Asking for the status of a key neither tier knows reports an
    untouched limit, a counter of zero and a window that starts now; the
    catch branch is not taken, so [getRateLimitStatus] logs no failure.
    The record reported is put into the in-process tier, under the default
    time-to-live of 300 seconds, when that tier takes it. *)
Theorem status_of_unknown_key :
  ∀ (config : RateLimitConfig) (req : Request) (now : Z) (fget fset : Faults)
    (s : State RateLimitData),
    mem s !! generateRateLimitKey config req = None →
    redis s !! generateRateLimitKey config req = None →
    ∃ s',
      @getRateLimitStatus _ (tiered stringify parse now fget fset) config now req s
      = (Some {| st_count := 0;
                 st_remaining := Z.max 0 (maxRequests config);
                 st_resetAt := now + windowSeconds config * 1000 |}, [], s') ∧
      (mem_set_throws fget = false →
       mem s' !! generateRateLimitKey config req
       = Some ({| count := 0; resetAt := now + windowSeconds config * 1000 |},
               now + 300 * 1000)).
Proof.
  intros config req now fget fset s Hm Hr. unfold getRateLimitStatus.
  cbn [cache_get tiered].
  set (key := generateRateLimitKey config req) in *.
  set (options := {| memoryTTL := None; redisTTL := None; skipMemory := None;
                     skipRedis := Some false |}).
  destruct (get_redis_absent parse now fget key (merge options) s Hr)
    as (s1 & Hs1 & _).
  rewrite (get_of_miss as_stored stringify parse now fget key _ options s s1
             (get_memory_absent as_stored now fget key (merge options) s Hm) Hs1).
  cbn [count resetAt]. rewrite Z.sub_0_r.
  eexists. split; [reflexivity|].
  intros Hf. rewrite store_memory_stores by (reflexivity || exact Hf).
  apply lookup_insert_eq.
Qed.


End LimiterMore.

Section LimiterRunsMore.
Import Cache RateLimit RateLimitMiddleware.

Lemma window_admits_exactly_the_limit_witness :
  passed (Throttled {| status := 429;
                       body := [("error", JStr "Too Many Requests");
                                ("message",
                                 JStr "Too many requests, please try again later.");
                                ("retryAfter", JNum 58)] |}) = true
  ↔ Z.of_nat 2 < 2.
Proof.
  apply (window_admits_exactly_the_limit Json.stringify_record Json.parse_record
           {| maxRequests := 2; windowSeconds := 60; identifier := Some "demo";
              keyGenerator := None; message := None; skip := None |}
           Samples.bare 0 0 healthy healthy
           [(1000, healthy, redis_down, 1000); (2000, redis_down, healthy, 2000)]
           empty_state 2).
  - reflexivity.
  - reflexivity.
  - reflexivity.
  - reflexivity.
  - reflexivity.
  - repeat (apply Forall_cons; split; [simpl; repeat split; lia|]).
    apply Forall_nil. exact I.
  - vm_compute. reflexivity.
Defined.



Lemma status_of_unknown_key_witness :
  ∃ s',
    @getRateLimitStatus _ (tiered Json.stringify_record Json.parse_record 1000
                             healthy healthy) searchRateLimit 1000 Samples.bare
      empty_state
    = (Some {| st_count := 0; st_remaining := Z.max 0 (maxRequests searchRateLimit);
               st_resetAt := 1000 + windowSeconds searchRateLimit * 1000 |}, [], s') ∧
    (mem_set_throws healthy = false →
     mem s' !! generateRateLimitKey searchRateLimit Samples.bare
     = Some ({| count := 0;
                resetAt := 1000 + windowSeconds searchRateLimit * 1000 |},
             1000 + 300 * 1000)).
Proof.
  apply (status_of_unknown_key Json.stringify_record Json.parse_record
           searchRateLimit Samples.bare 1000 healthy healthy empty_state);
    reflexivity.
Defined.



End LimiterRunsMore.

(** ** Tiered cache: delete, the distributed hit, invalidation, warming *)

Section TieredCacheMore.
Import Cache CacheAdmin.
Context {V : Type}.
Variable unwrap : V → V.
Variable stringify : V → Res string.
Variable parse : string → option V.






(** X15. [invalidate] empties the whole in-process tier, whatever the
    pattern; and when the distributed tier carries out its commands, no key
    the pattern matches can be read from it afterwards, while the keys the
    pattern does not match stay as they were. *)
Theorem invalidate_clears_memory_and_matches :
  ∀ (matches : string → string → bool) (now : Z) (f : Faults) (keys_fail : bool)
    (pattern : string) (s : State V),
    mem (invalidate matches now f false keys_fail pattern s) = ∅ ∧
    (redis_available f = true → keys_fail = false → redis_del_fails f = false →
     ∀ k, if matches pattern k
          then (redis_get now k (invalidate matches now f false keys_fail pattern s)).1
               = None
          else redis (invalidate matches now f false keys_fail pattern s) !! k
               = redis s !! k).
Proof.
  intros matches now f keys_fail pattern s. split.
  - unfold invalidate.
    destruct (redis_available f); [|reflexivity].
    destruct keys_fail; [reflexivity|].
    destruct (redis_keys _ _ _ _); [reflexivity|].
    destruct (redis_del_fails f); reflexivity.
  - intros Ha -> Hd k. unfold invalidate. rewrite Ha, Hd.
    unfold redis_keys. cbn [redis mem log trace].
    set (P := λ kv : string * (string * Z),
                matches pattern kv.1 = true ∧ redis_live now kv.2 = true).
    destruct ((map_to_list (filter P (redis s))).*1) as [|k0 ks] eqn:E.
    + destruct (matches pattern k) eqn:Hk; [|reflexivity].
      unfold redis_get, bind, emit. cbn [fst snd redis].
      destruct (redis s !! k) as [e|] eqn:Hl; [|reflexivity].
      destruct (redis_live now e) eqn:Hlive; [|reflexivity].
      exfalso. apply fmap_nil_inv in E. apply map_to_list_empty_iff in E.
      assert (Hin : filter P (redis s) !! k = Some e)
        by (apply map_lookup_filter_Some; split; [exact Hl|split; assumption]).
      rewrite E, lookup_empty in Hin. discriminate.
    + destruct (matches pattern k) eqn:Hk.
      * unfold redis_get, bind, emit. cbn [fst snd redis].
        destruct (filter _ (redis s) !! k) as [e|] eqn:Hl; [|reflexivity].
        apply map_lookup_filter_Some in Hl as [Hl Hn].
        destruct (redis_live now e) eqn:Hlive; [|reflexivity].
        exfalso. apply Hn. split; assumption.
      * cbn [redis]. apply option_eq. intros e.
        rewrite map_lookup_filter_Some. split; [intros [H _]; exact H|].
        intros H. split; [exact H|]. intros [Hm _]. cbn [fst] in Hm. congruence.
Qed.







End TieredCacheMore.

Section CacheRunsMore.
Import Cache CacheAdmin.





Lemma invalidate_clears_memory_and_matches_witness :
  (redis_get 1000 "user:7:orders"
     (invalidate (λ pattern key, Csrf.is_prefix pattern key) 1000 healthy false
        false "user:7"
        {| mem := {[ "product:3" := (42, 300000) ]};
           redis := {[ "user:7:orders" := ("42", 3600000) ]};
           log := []; trace := [] |})).1
  = None.
Proof.
  exact (proj2 (invalidate_clears_memory_and_matches
                  (λ pattern key, Csrf.is_prefix pattern key) 1000 healthy false
                  "user:7"
                  {| mem := {[ "product:3" := (42, 300000) ]};
                     redis := {[ "user:7:orders" := ("42", 3600000) ]};
                     log := []; trace := [] |})
           eq_refl eq_refl eq_refl "user:7:orders").
Defined.

End CacheRunsMore.

(** ** Server initialization *)

Section ServerInitMore.
Import ServerInit.

Lemma initializeServer_registered validates how (s : Server) :
  all_or_nothing (validates, how) →
  registered s = (if initialized s then [DeleteMiddleware; ReadMiddleware] else []) →
  registered (initializeServer validates how s).2
  = (if initialized (initializeServer validates how s).2
     then [DeleteMiddleware; ReadMiddleware] else []).
Proof.
  intros Hc Hs. unfold initializeServer.
  destruct (initialized s) eqn:Hi; [simpl; rewrite Hi; exact Hs|].
  destruct validates; [|simpl; rewrite Hi; exact Hs].
  destruct how; simpl in *; rewrite ?Hs; try reflexivity. contradiction.
Qed.

(** X28. As long as no call of [setupSoftDeleteMiddleware] fails between
    its two registrations: however often [initializeServer] is called on a
    freshly loaded server, and however many of the calls fail, the
    middlewares registered are the delete and the read middleware, once
    each, if the server counts as initialized, and none otherwise. *)
Theorem middleware_is_set_up_at_most_once :
  ∀ (calls : list (Res unit * Setup)),
    Forall all_or_nothing calls →
    registered (initializations calls fresh)
    = (if initialized (initializations calls fresh)
       then [DeleteMiddleware; ReadMiddleware] else []).
Proof.
  intros calls Hall.
  assert (H : ∀ s, registered s
                   = (if initialized s then [DeleteMiddleware; ReadMiddleware] else []) →
                   registered (initializations calls s)
                   = (if initialized (initializations calls s)
                      then [DeleteMiddleware; ReadMiddleware] else [])).
  { induction calls as [|[validates how] rest IH]; intros s Hs; [exact Hs|].
    apply Forall_cons in Hall as [Hcall Hrest].
    simpl. apply (IH Hrest), initializeServer_registered; assumption. }
  apply H. reflexivity.
Qed.

Lemma middleware_is_set_up_at_most_once_witness :
  registered (initializations
                [(Threw "DATABASE_URL is missing", Completes);
                 (Ok tt, FirstUseThrows "prisma.$use is not a function");
                 (Ok tt, Completes); (Ok tt, Completes)] fresh)
  = [DeleteMiddleware; ReadMiddleware].
Proof.
  apply (middleware_is_set_up_at_most_once
           [(Threw "DATABASE_URL is missing", Completes);
            (Ok tt, FirstUseThrows "prisma.$use is not a function");
            (Ok tt, Completes); (Ok tt, Completes)]).
  repeat (apply Forall_cons; split; [exact I|]). apply Forall_nil. exact I.
Defined.

(** A failure between the two registrations leaves the delete middleware
    registered, and the next successful call registers it again. *)
Example partial_setup_registers_twice :
  initializations [(Ok tt, SecondUseThrows "boom"); (Ok tt, Completes)] fresh
  = {| initialized := true;
       registered := [DeleteMiddleware; DeleteMiddleware; ReadMiddleware] |}.
Proof. reflexivity. Qed.

End ServerInitMore.

(** ** CSRF guard *)

Section CsrfGuardMore.
Import Csrf.
Variable sessionUser : Request → option string.
Variable verifyToken : HeaderVal → string → bool.

(** X29. The guard hands a request on in exactly two cases: the request
    is not one it guards (its method is not among the protected ones, or
    its path contains an exempt path), or it carries a non-empty token that
    verifies against the identity of its session. *)
Theorem csrf_hands_on_exactly_when :
  ∀ (config : CSRFConfig) (req : Request),
    (csrfProtection sessionUser verifyToken config req).1 = Next
    ↔ guarded config req = false
      ∨ ∃ t, req_headers req !! "x-csrf-token" = Some t ∧
             truthy (Some t) = true ∧
             verifyToken t (getSessionId sessionUser req) = true.
Proof.
  intros config req. unfold csrfProtection, guarded.
  destruct (bool_decide _); cbn [negb andb]; [|split; auto].
  destruct (existsb _ _); cbn [negb fst]; [split; auto|].
  destruct (req_headers req !! "x-csrf-token") as [t|] eqn:Ht.
  - destruct (truthy (Some t)) eqn:Htr.
    + destruct (verifyToken t _) eqn:Hv; cbn [fst].
      * split; [intros _; right; eauto|reflexivity].
      * split; [discriminate|].
        intros [H|(t' & [= <-] & _ & H)]; congruence.
    + cbn [fst]. split; [discriminate|].
      intros [H|(t' & [= <-] & H & _)]; congruence.
  - cbn [fst]. split; [discriminate|].
    intros [H|(t' & H & _)]; discriminate.
Qed.

(** X30. An exempt path exempts wherever it occurs in the URL of the
    request, the query string included: such a request is handed on
    without a token being looked at, and nothing is logged. *)
Theorem skip_path_exempts_wherever_it_occurs :
  ∀ (config : CSRFConfig) (req : Request) (paths : list string)
    (skipPath before after : string),
    skipPaths config = Some paths → skipPath ∈ paths →
    req_url req = Some (before +:+ skipPath +:+ after) →
    csrfProtection sessionUser verifyToken config req = (Next, []).
Proof.
  intros config req paths skipPath before after Hp Hin Hu. unfold csrfProtection.
  destruct (negb _); [reflexivity|].
  rewrite Hp, Hu. unfold default. cbn [from_option id].
  assert (He : existsb (λ sp, includes (before +:+ skipPath +:+ after) sp) paths
               = true).
  { apply existsb_exists. exists skipPath. split.
    - apply list_elem_of_In, Hin.
    - apply includes_infix. }
  rewrite He. reflexivity.
Qed.

End CsrfGuardMore.

Lemma skip_path_exempts_wherever_it_occurs_witness :
  Csrf.csrfProtection CsrfSamples.session_of_alice CsrfSamples.verify_by_prefix
    {| Csrf.skipPaths := Some ["/api/auth"; "/api/health"];
       Csrf.methods := None; Csrf.errorMessage := None |}
    {| req_method := Some "POST"; req_url := Some "/api/orders?from=/api/health";
       req_headers := ∅; req_query := ∅; req_remoteAddress := Some "10.0.0.1" |}
  = (Csrf.Next, []).
Proof.
  apply (skip_path_exempts_wherever_it_occurs CsrfSamples.session_of_alice
           CsrfSamples.verify_by_prefix
           {| Csrf.skipPaths := Some ["/api/auth"; "/api/health"];
              Csrf.methods := None; Csrf.errorMessage := None |}
           {| req_method := Some "POST";
              req_url := Some "/api/orders?from=/api/health";
              req_headers := ∅; req_query := ∅;
              req_remoteAddress := Some "10.0.0.1" |}
           ["/api/auth"; "/api/health"] "/api/health" "/api/orders?from=" "").
  - reflexivity.
  - member.
  - reflexivity.
Defined.
